(** * racebox: GPS track plotting ([map.py])

    A shallow embedding of [map.py] and the properties of its reader,
    bounds calculator, zoom estimator and renderer guard.

    Number model.  A Python [float] holding a coordinate is modelled as a
    real number: coordinates are finite, and their arithmetic is exact
    (binary64 rounding and overflow are not modelled, nor are coordinates
    that are NaN or infinite).  Comparisons, [min] and [max] are exact on
    floats, so the reader and the bounds are modelled as the code computes
    them.  The zoom formula of line 52 is not: the code rounds [np.log],
    the division and the subtraction, and a span beyond the float range
    overflows to infinity.  The properties of [estimate_zoom] below are
    therefore those that do not hinge on the last bit of line 52 (the
    range of a returned level, its order, the levels of boxes inside the
    Czech box, the exceptions on inverted boxes); the exact level of an
    arbitrary box is not among them.  The non-finite values that [np.log]
    produces at line 52 are modelled explicitly ([float64]), since they
    decide whether [int] raises.

    Input and output.  A CSV file is given by its name and by the rows
    that [csv.DictReader] yields for it; a failure of [open] or of the
    reader while it iterates is outside the model.  What the program
    prints and the calls it makes into the plotting libraries are
    recorded, in order, as a list of events; the library calls are taken
    to return. *)

From Stdlib Require Import Reals Lra Lia ZArith.
From stdpp Require Import gmap strings list.

Abbreviation float := R (only parsing).

#[global] Instance Rle_decision (x y : R) : Decision (x <= y)%R := Rle_dec x y.
#[global] Instance Rlt_decision (x y : R) : Decision (x < y)%R := Rlt_dec x y.
#[global] Instance R_eq_decision : EqDecision R := Req_dec_T.

(** ** Exceptions and results *)

(** The exception classes that the modelled statements raise: the field
    conversions of lines 21-22, [min] and [max] of line 39, [int] of
    line 52.  Errors of the file system and of the CSV reader are not
    among them. *)
Inductive exn : Type :=
  | KeyError (key : string)   (* [row[key]] on a row without that column *)
  | TypeError                 (* [float(None)]: a record shorter than the header *)
  | ValueError                (* [float(s)] on a malformed field, [min([])], [int(nan)] *)
  | OverflowError.            (* [int(inf)] *)

#[global] Instance exn_eq_dec : EqDecision exn.
Proof. solve_decision. Defined.

(** A computation without output: it returns a value or raises. *)
Definition result (A : Type) : Type := exn + A.

#[global] Instance result_ret : MRet result := λ A a, inr a.
#[global] Instance result_bind : MBind result := λ A B k r,
  match r with
  | inl e => inl e
  | inr a => k a
  end.

(** ** Python and NumPy primitives *)

(** Values of [np.float64]: finite, plus or minus infinity, NaN. *)
Inductive float64 : Type :=
  | Finite (x : R)
  | Inf (negative : bool)
  | NaN.

(** [np.log]: the natural logarithm; [-inf] at zero and [nan] below zero
    (NumPy warns and returns, it does not raise). *)
Definition np_log (x : float) : float64 :=
  if decide (0 < x)%R then Finite (ln x)
  else if decide (x = 0%R) then Inf true
  else NaN.

(** IEEE 754 division on [float64].  Zeros carry no sign in this model: a
    zero divisor is read as [+0.0]. *)
Definition f64_div (a b : float64) : float64 :=
  match a, b with
  | NaN, _ | _, NaN => NaN
  | Finite x, Finite y =>
      if decide (y = 0%R)
      then (if decide (x = 0%R) then NaN else Inf (bool_decide (x < 0)%R))
      else Finite (x / y)
  | Finite _, Inf _ => Finite 0
  | Inf s, Finite y => Inf (xorb s (bool_decide (y < 0)%R))
  | Inf _, Inf _ => NaN
  end.

(** IEEE 754 subtraction on [float64]. *)
Definition f64_sub (a b : float64) : float64 :=
  match a, b with
  | NaN, _ | _, NaN => NaN
  | Finite x, Finite y => Finite (x - y)
  | Finite _, Inf s => Inf (negb s)
  | Inf s, Finite _ => Inf s
  | Inf s, Inf t => if bool_decide (s = t) then NaN else Inf s
  end.

(** Truncation toward zero. *)
Definition trunc (r : R) : Z :=
  if decide (0 <= r)%R then Zfloor r else Zceil r.

(** [int(x)] on a float: truncation toward zero; [OverflowError] on an
    infinity and [ValueError] on NaN. *)
Definition py_int (x : float64) : result Z :=
  match x with
  | Finite r => inr (trunc r)
  | Inf _ => inl OverflowError
  | NaN => inl ValueError
  end.

(** [min(l)] and [max(l)] on a list of floats: the running extremum, from
    the first element on; [ValueError] on the empty list. *)
Definition py_min (l : list float) : result float :=
  match l with
  | [] => inl ValueError
  | x :: l' => inr (foldl Rmin x l')
  end.

Definition py_max (l : list float) : result float :=
  match l with
  | [] => inl ValueError
  | x :: l' => inr (foldl Rmax x l')
  end.

(** ** The bounding box of the Czech Republic (lines 10-11) *)

Definition LAT_MIN : float := 48.5%R.
Definition LAT_MAX : float := 51.5%R.
Definition LON_MIN : float := 12.0%R.
Definition LON_MAX : float := 18.9%R.

(** ** [calculate_bounds] (lines 38-39) *)

Definition calculate_bounds (longitudes latitudes : list float)
  : result (float * float * float * float) :=
  min_lon ← py_min longitudes;
  max_lon ← py_max longitudes;
  min_lat ← py_min latitudes;
  max_lat ← py_max latitudes;
  mret (min_lon, max_lon, min_lat, max_lat).

(** ** [estimate_zoom] (lines 42-55) *)

(** The spans and line 52 are computed over the reals, see the number
    model above. *)

Definition estimate_zoom (min_lon max_lon min_lat max_lat : float) : result Z :=
  let lon_diff := (max_lon - min_lon)%R in
  let lat_diff := (max_lat - min_lat)%R in
  if bool_decide (lon_diff = 0%R) && bool_decide (lat_diff = 0%R) then mret 19%Z
  else
    zoom ← py_int (f64_sub (Finite 12)
                     (f64_div (np_log (Rmax lon_diff lat_diff)) (np_log 2)));
    mret (Z.max 0 (Z.min zoom 19)).

(** ** Console output and library calls *)

(** What the program does to the outside world, in order: the lines it
    prints and the calls it makes into the plotting libraries. *)
Inductive event : Type :=
  | PrintRow (i : nat) (longitude latitude : float)      (* line 26 *)
  | PrintOutsideCZ (longitude latitude : float)          (* line 33 *)
  | PrintSkipping (csv_file : string)                    (* line 63 *)
  | PrintNoValidData (csv_file : string)                 (* line 67 *)
  | GeoDataFrame (points : list (float * float))         (* lines 71-75 *)
  | ToCrs                                                (* line 78 *)
  | Plot                                                 (* line 81 *)
  | SetLimits (min_lon min_lat max_lon max_lat : float)
      (* lines 87-89: the two WGS84 corners handed to the reprojection;
         the Web-Mercator limits that result are not modelled *)
  | PrintZoom (zoom : Z)                                 (* line 93 *)
  | AddBasemap (zoom : Z)                                (* line 96 *)
  | Show (csv_file : string).                            (* lines 98-103 *)

(** A computation with output: the events emitted so far, and then a value
    or the exception that stopped it. *)
Definition io (A : Type) : Type := list event * result A.

#[global] Instance io_ret : MRet io := λ A a, ([], inr a).
#[global] Instance io_bind : MBind io := λ A B k m,
  match m with
  | (out, inl e) => (out, inl e)
  | (out, inr a) => let '(out', r) := k a in (out ++ out', r)
  end.

Definition emit (e : event) : io unit := ([e], inr tt).
Definition lift {A} (r : result A) : io A := ([], r).

(** ** [read_gps_data] (lines 14-35) *)

(** A row as [csv.DictReader] yields it: column name to field, where a
    field missing from a short record is [None]. *)
Abbreviation row := (gmap string (option string)).

Section reader.

(** Python's [float(s)] on a string: [None] stands for [ValueError].  Texts
    that [float] reads as NaN or as an infinity have no value in this
    model. *)
Variable parse_float : string → option float.

(** [float(row[key])]. *)
Definition float_field (r : row) (key : string) : result float :=
  match r !! key with
  | None => inl (KeyError key)
  | Some None => inl TypeError
  | Some (Some s) =>
      match parse_float s with
      | None => inl ValueError
      | Some x => inr x
      end
  end.

(** The loop of lines 20-33, from row number [i] on, with the two lists
    built so far. *)
Fixpoint read_rows (i : nat) (rows : list row) (longitudes latitudes : list float)
  : io (list float * list float) :=
  match rows with
  | [] => mret (longitudes, latitudes)
  | r :: rows' =>
      longitude ← lift (float_field r "Longitude");
      latitude ← lift (float_field r "Latitude");
      (if bool_decide (i < 5)%nat then emit (PrintRow i longitude latitude)
       else mret tt);;
      if bool_decide (LON_MIN <= longitude <= LON_MAX)%R
         && bool_decide (LAT_MIN <= latitude <= LAT_MAX)%R
      then read_rows (S i) rows' (longitudes ++ [longitude]) (latitudes ++ [latitude])
      else emit (PrintOutsideCZ longitude latitude);;
           read_rows (S i) rows' longitudes latitudes
  end.

Definition read_gps_data (rows : list row) : io (list float * list float) :=
  read_rows 0 rows [] [].

End reader.

(** ** [plot_gps_path] (lines 58-103) *)

(** Lines 61-103: what [plot_gps_path] does with the two lists that
    [read_gps_data] returned. *)
Definition plot_coordinates (csv_file : string) (longitudes latitudes : list float)
  : io unit :=
  if bool_decide (length longitudes < 1000)%nat
     || bool_decide (length latitudes < 1000)%nat
  then emit (PrintSkipping csv_file)
  else if bool_decide (length longitudes = 0)%nat
          || bool_decide (length latitudes = 0)%nat
  then emit (PrintNoValidData csv_file)
  else
    emit (GeoDataFrame (zip longitudes latitudes));;
    emit ToCrs;;
    emit Plot;;
    '(min_lon, max_lon, min_lat, max_lat) ← lift (calculate_bounds longitudes latitudes);
    emit (SetLimits min_lon min_lat max_lon max_lat);;
    zoom ← lift (estimate_zoom min_lon max_lon min_lat max_lat);
    emit (PrintZoom zoom);;
    emit (AddBasemap zoom);;
    emit (Show csv_file).

Definition plot_gps_path (parse_float : string → option float)
    (csv_file : string) (rows : list row) : io unit :=
  '(longitudes, latitudes) ← read_gps_data parse_float rows;
  plot_coordinates csv_file longitudes latitudes.

(** ** The logarithm of the zoom formula *)

Definition log2 (x : R) : R := (ln x / ln 2)%R.

(** ** Coordinate sets and extrema as the specification words them *)

(** A coordinate pair is (longitude, latitude); a coordinate set is the
    list of the accepted pairs of one file, in row order. *)
Definition in_cz (p : float * float) : Prop :=
  (LON_MIN <= p.1 <= LON_MAX)%R ∧ (LAT_MIN <= p.2 <= LAT_MAX)%R.

#[global] Instance in_cz_dec (p : float * float) : Decision (in_cz p).
Proof. unfold in_cz. apply _. Defined.

Definition is_minimum (m : R) (l : list R) : Prop :=
  m ∈ l ∧ ∀ x, x ∈ l → (m <= x)%R.

Definition is_maximum (m : R) (l : list R) : Prop :=
  m ∈ l ∧ ∀ x, x ∈ l → (x <= m)%R.

(** ** Rows and output as the specification words them *)

Section rows.

Variable parse_float : string → option float.

(** A parsed row: both fields are there and [float] accepts them, giving
    the pair [p]. *)
Definition row_parses (r : row) (p : float * float) : Prop :=
  float_field parse_float r "Longitude" = inr p.1
  ∧ float_field parse_float r "Latitude" = inr p.2.

(** The field [key] of the row is a text that [float] rejects. *)
Definition unparseable (r : row) (key : string) : Prop :=
  ∃ s : string, r !! key = Some (Some s) ∧ parse_float s = None.

End rows.

(** Both columns are present in the row, as texts. *)
Definition has_columns (r : row) : Prop :=
  ∃ s1 s2 : string,
    r !! "Longitude" = Some (Some s1) ∧ r !! "Latitude" = Some (Some s2).

(** The events of lines 71-103: the figure is being built or shown. *)
Definition is_render_call (e : event) : bool :=
  match e with
  | GeoDataFrame _ | ToCrs | Plot | SetLimits _ _ _ _ | AddBasemap _ | Show _ => true
  | PrintRow _ _ _ | PrintOutsideCZ _ _ | PrintSkipping _ | PrintNoValidData _
  | PrintZoom _ => false
  end.

(** The diagnostics of [read_gps_data]. *)
Definition is_reader_event (e : event) : Prop :=
  match e with
  | PrintRow _ _ _ | PrintOutsideCZ _ _ => True
  | _ => False
  end.

(** ** A small file for the examples *)

(** A stand-in for [float] that knows three field texts. *)
Definition example_float (s : string) : option float :=
  if decide (s = "13.5") then Some 13.5%R
  else if decide (s = "49.0") then Some 49.0%R
  else if decide (s = "20.0") then Some 20.0%R
  else None.

Definition example_row (longitude latitude : string) : row :=
  {[ "Longitude" := Some longitude; "Latitude" := Some latitude ]}.

(** One row inside the box, one east of it. *)
Definition example_rows : list row :=
  [example_row "13.5" "49.0"; example_row "20.0" "49.0"].

(** A row inside the box, then a row with a malformed latitude. *)
Definition example_bad_rows : list row :=
  [example_row "13.5" "49.0"; example_row "13.5" "49,0"].

(** ** The reader's diagnostics, row by row *)

Definition is_echo_line (e : event) : bool :=
  match e with
  | PrintRow _ _ _ => true
  | _ => false
  end.

Definition is_skip_line (e : event) : bool :=
  match e with
  | PrintOutsideCZ _ _ => true
  | _ => false
  end.

(** What lines 24-33 print for the parsed pairs, the first of them being
    row number [i]. *)
Fixpoint diagnostics (i : nat) (pairs : list (float * float)) : list event :=
  match pairs with
  | [] => []
  | p :: pairs' =>
      (if bool_decide (i < 5)%nat then [PrintRow i p.1 p.2] else [])
      ++ (if bool_decide (in_cz p) then [] else [PrintOutsideCZ p.1 p.2])
      ++ diagnostics (S i) pairs'
  end.

(** ** [find_csv_files] and the main block (lines 105-117) *)

(** [s.endswith(suffix)]: some tail of [s] is [suffix]. *)
Fixpoint endswith (s suffix : string) : bool :=
  if String.eqb s suffix then true
  else match s with
       | EmptyString => false
       | String _ s' => endswith s' suffix
       end.

(** [find_csv_files], on the names that [os.listdir('.')] returns. *)
Definition find_csv_files (listdir : list string) : list string :=
  filter (λ f, endswith f ".csv") listdir.

(** The output of the main block: its own two lines, and what each call
    of [plot_gps_path] emits. *)
Inductive main_event : Type :=
  | PrintNoCsvFiles                     (* line 113 *)
  | PrintPlotting (csv_file : string)   (* line 116 *)
  | InPlot (e : event).                 (* line 117 *)

Definition plotting_line (e : main_event) : option string :=
  match e with
  | PrintPlotting csv_file => Some csv_file
  | _ => None
  end.

Section main.

Variable parse_float : string → option float.

(** The rows that [csv.DictReader] yields for each file of the directory. *)
Variable rows_of : string → list row.

(** The loop of lines 115-117: an exception of [plot_gps_path] is not
    caught, it ends the loop. *)
Fixpoint plot_all (csv_files : list string) : list main_event * result unit :=
  match csv_files with
  | [] => ([], inr tt)
  | csv_file :: rest =>
      match plot_gps_path parse_float csv_file (rows_of csv_file) with
      | (out, inl e) => (PrintPlotting csv_file :: (InPlot <$> out), inl e)
      | (out, inr _) =>
          let '(out', r) := plot_all rest in
          (PrintPlotting csv_file :: (InPlot <$> out) ++ out', r)
      end
  end.

(** Lines 109-117. *)
Definition main (listdir : list string) : list main_event * result unit :=
  match find_csv_files listdir with
  | [] => ([PrintNoCsvFiles], inr tt)
  | csv_files => plot_all csv_files
  end.

End main.

(** A track of 1200 rows, all at the same point inside the box. *)
Definition example_track : list row :=
  replicate 1200 (example_row "13.5" "49.0").

(** * Properties *)

(** Case analysis on every [Rmin] and [Rmax] of the goal, closing the
    cases that linear arithmetic refutes. *)
Ltac case_min_max :=
  unfold Rmin, Rmax; repeat destruct (Rle_dec _ _); try lra.

(** ** Arithmetic of the zoom formula *)

Lemma ln_2_pos : (0 < ln 2)%R.
Proof. pose proof ln_lt_2. lra. Qed.

Lemma np_log_pos x : (0 < x)%R → np_log x = Finite (ln x).
Proof. intros Hx. unfold np_log. by rewrite decide_True. Qed.

(** Line 52 on a positive span: everything stays finite. *)
Lemma zoom_formula_pos m :
  (0 < m)%R →
  py_int (f64_sub (Finite 12) (f64_div (np_log m) (np_log 2)))
  = inr (trunc (12 - log2 m)).
Proof.
  intros Hm. rewrite !np_log_pos by lra. simpl.
  rewrite decide_False; [done|]. pose proof ln_2_pos. lra.
Qed.

Lemma trunc_le x y : (x <= y)%R → (trunc x ≤ trunc y)%Z.
Proof.
  intros Hxy. unfold trunc. repeat case_decide; try lra.
  - by apply Zfloor_le.
  - pose proof (Zceil_bound x). pose proof (Zfloor_bound y).
    assert (IZR (Zceil x) < IZR 1)%R as Hc by lra. apply lt_IZR in Hc.
    assert (IZR (-1) < IZR (Zfloor y))%R as Hf by lra. apply lt_IZR in Hf.
    lia.
  - by apply Zceil_le.
Qed.

Lemma Rmax_pos_of_spans a b :
  (0 <= a)%R → (0 <= b)%R → ¬ (a = 0%R ∧ b = 0%R) → (0 < Rmax a b)%R.
Proof.
  intros Ha Hb Hne. destruct (decide (b = 0%R)); [|case_min_max].
  destruct (decide (a = 0%R)); [tauto|case_min_max].
Qed.

Lemma both_zero_test a b :
  bool_decide (a = 0%R) && bool_decide (b = 0%R) = bool_decide (a = 0%R ∧ b = 0%R).
Proof. destruct (decide (a = 0%R)), (decide (b = 0%R)); repeat case_bool_decide; tauto. Qed.

(** [estimate_zoom] on a box with non-negative spans, in closed form over
    the reals. *)
Lemma estimate_zoom_nonneg min_lon max_lon min_lat max_lat :
  (0 <= max_lon - min_lon)%R → (0 <= max_lat - min_lat)%R →
  estimate_zoom min_lon max_lon min_lat max_lat
  = inr (if decide ((max_lon - min_lon = 0)%R ∧ (max_lat - min_lat = 0)%R)
         then 19%Z
         else Z.max 0 (Z.min (trunc (12 - log2 (Rmax (max_lon - min_lon)
                                                      (max_lat - min_lat)))) 19)).
Proof.
  intros Hlon Hlat. unfold estimate_zoom. cbv zeta.
  rewrite both_zero_test. case_bool_decide as Hz.
  - by rewrite decide_True.
  - rewrite decide_False by done.
    rewrite zoom_formula_pos by (by apply Rmax_pos_of_spans). done.
Qed.

(** ** Zoom estimator *)

(** Worked values: a single point, a box of 1 by 1.5 degrees, and a
    negative value, on which [int] and the floor disagree. *)
Example estimate_zoom_point lon lat : estimate_zoom lon lon lat lat = inr 19%Z.
Proof.
  unfold estimate_zoom. cbv zeta.
  rewrite !bool_decide_eq_true_2 by lra. reflexivity.
Qed.

Lemma log2_between_0_1 m : (1 < m < 2)%R → (0 < log2 m < 1)%R.
Proof.
  intros [Hlo Hhi]. pose proof ln_2_pos as H2. unfold log2.
  assert (0 < ln m)%R as H0 by (rewrite <- ln_1; apply ln_increasing; lra).
  assert (ln m < ln 2)%R as H1 by (apply ln_increasing; lra).
  split.
  - apply Rmult_lt_0_compat; [done|]. by apply Rinv_0_lt_compat.
  - apply (Rmult_lt_reg_r (ln 2)); [done|]. field_simplify; lra.
Qed.

Example estimate_zoom_example : estimate_zoom 12 13 48.5 50 = inr 11%Z.
Proof.
  rewrite estimate_zoom_nonneg by lra. rewrite decide_False by lra.
  replace (Rmax (13 - 12) (50 - 48.5)) with 1.5%R by case_min_max.
  pose proof (log2_between_0_1 1.5 ltac:(lra)) as Hlog.
  unfold trunc. rewrite decide_True by lra.
  rewrite (Zfloor_eq 11); [reflexivity|lra].
Qed.

Example int_is_not_floor : trunc (-0.5) = 0%Z ∧ Zfloor (-0.5) = (-1)%Z.
Proof.
  split.
  - unfold trunc. rewrite decide_False by lra. apply Zceil_eq. lra.
  - apply Zfloor_eq. lra.
Qed.

(** With a negative span the conversion [int] raises: a negative span
    next to a zero one gives [log 0 = -inf], two negative spans give
    [nan]. *)
Example estimate_zoom_negative_span :
  estimate_zoom 1 0 0 0 = inl OverflowError
  ∧ estimate_zoom 1 0 1 0 = inl ValueError.
Proof.
  unfold estimate_zoom. cbv zeta. split.
  - rewrite (bool_decide_eq_false_2 (0 - 1 = 0)%R) by lra. cbn [andb].
    replace (Rmax (0 - 1) (0 - 0)) with 0%R by case_min_max.
    rewrite (np_log_pos 2) by lra. unfold np_log.
    rewrite decide_False by lra. rewrite decide_True by done. reflexivity.
  - rewrite (bool_decide_eq_false_2 (0 - 1 = 0)%R) by lra. cbn [andb].
    replace (Rmax (0 - 1) (0 - 1)) with (-1)%R by case_min_max.
    rewrite (np_log_pos 2) by lra. unfold np_log.
    rewrite !decide_False by lra. reflexivity.
Qed.

(** A box whose larger span lies between 1.25 and 1.75 degrees, away from
    the powers of two, is at level 11. *)
Lemma estimate_zoom_11 min_lon max_lon min_lat max_lat :
  (0 <= max_lon - min_lon)%R → (0 <= max_lat - min_lat)%R →
  (1.25 <= Rmax (max_lon - min_lon) (max_lat - min_lat) <= 1.75)%R →
  estimate_zoom min_lon max_lon min_lat max_lat = inr 11%Z.
Proof.
  intros Hlon Hlat Hspan. rewrite estimate_zoom_nonneg by done.
  assert (1 < Rmax (max_lon - min_lon) (max_lat - min_lat) < 2)%R as Hopen by lra.
  pose proof (log2_between_0_1 _ Hopen) as Hlog.
  rewrite decide_False by (intros [Hz1 Hz2]; rewrite Hz1, Hz2 in Hspan;
                           revert Hspan; case_min_max).
  unfold trunc. rewrite decide_True by lra.
  rewrite (Zfloor_eq 11); [reflexivity|lra].
Qed.

Lemma log2_between_2_3 m : (4 < m < 8)%R → (2 < log2 m < 3)%R.
Proof.
  intros [Hlo Hhi]. pose proof ln_2_pos as H2. unfold log2.
  assert (ln 4 = 2 * ln 2)%R as H4.
  { replace 4%R with (2 * 2)%R by lra. rewrite ln_mult by lra. lra. }
  assert (ln 8 = 3 * ln 2)%R as H8.
  { replace 8%R with (2 * (2 * 2))%R by lra. rewrite !ln_mult by lra. lra. }
  assert (ln 4 < ln m)%R as Hm4 by (apply ln_increasing; lra).
  assert (ln m < ln 8)%R as Hm8 by (apply ln_increasing; lra).
  split.
  - apply (Rmult_lt_reg_r (ln 2)); [done|]. field_simplify; lra.
  - apply (Rmult_lt_reg_r (ln 2)); [done|]. field_simplify; lra.
Qed.

(** A box whose larger span lies between 5 and 7 degrees, away from the
    powers of two, is at level 9. *)
Lemma estimate_zoom_9 min_lon max_lon min_lat max_lat :
  (0 <= max_lon - min_lon)%R → (0 <= max_lat - min_lat)%R →
  (5 <= Rmax (max_lon - min_lon) (max_lat - min_lat) <= 7)%R →
  estimate_zoom min_lon max_lon min_lat max_lat = inr 9%Z.
Proof.
  intros Hlon Hlat Hspan. rewrite estimate_zoom_nonneg by done.
  assert (4 < Rmax (max_lon - min_lon) (max_lat - min_lat) < 8)%R as Hopen by lra.
  pose proof (log2_between_2_3 _ Hopen) as Hlog.
  rewrite decide_False by (intros [Hz1 Hz2]; rewrite Hz1, Hz2 in Hspan;
                           revert Hspan; case_min_max).
  unfold trunc. rewrite decide_True by lra.
  rewrite (Zfloor_eq 9); [reflexivity|lra].
Qed.

(** C5. The value that [estimate_zoom] returns lies between 0 and 19, both
    included: on every bounding box with non-negative spans (and on any
    other box) on which the call returns a level, that level is in range.
    That the call returns is not part of the statement: where the code
    raises, it returns no level. *)
Theorem estimate_zoom_range min_lon max_lon min_lat max_lat (zoom : Z) :
  estimate_zoom min_lon max_lon min_lat max_lat = inr zoom →
  (0 ≤ zoom ≤ 19)%Z.
Proof.
  unfold estimate_zoom. cbv zeta.
  destruct (bool_decide _ && bool_decide _).
  - intros [= <-]. lia.
  - destruct (py_int _) as [e|level]; [discriminate|].
    cbn [mbind result_bind mret result_ret]. intros [= <-]. lia.
Qed.

Lemma estimate_zoom_range_witness :
  estimate_zoom 12 13 48.5 50 = inr 11%Z ∧ (0 ≤ 11 ≤ 19)%Z.
Proof.
  assert (estimate_zoom 12 13 48.5 50 = inr 11%Z) as Hzoom.
  { apply estimate_zoom_11; [lra|lra|case_min_max]. }
  split; [exact Hzoom|]. exact (estimate_zoom_range 12 13 48.5 50 11 Hzoom).
Defined.

Lemma log2_le x y : (0 < x)%R → (x <= y)%R → (log2 x <= log2 y)%R.
Proof.
  intros Hx Hxy. unfold log2. pose proof ln_2_pos as H2.
  assert (ln x <= ln y)%R as Hln.
  { destruct (decide (x = y)) as [->|Hne]; [lra|].
    left. apply ln_increasing; lra. }
  apply Rmult_le_compat_r; [|done]. left. by apply Rinv_0_lt_compat.
Qed.

(** C4. Among bounding boxes with non-negative spans, a box whose larger
    span is at most that of another box gets a zoom level at least as high:
    whenever [estimate_zoom] returns a level for each of the two boxes, the
    level of the box with the larger span is not the higher one. *)
Theorem estimate_zoom_monotone
    min_lon1 max_lon1 min_lat1 max_lat1 min_lon2 max_lon2 min_lat2 max_lat2
    (zoom1 zoom2 : Z) :
  (0 <= max_lon1 - min_lon1)%R → (0 <= max_lat1 - min_lat1)%R →
  (0 <= max_lon2 - min_lon2)%R → (0 <= max_lat2 - min_lat2)%R →
  (Rmax (max_lon1 - min_lon1) (max_lat1 - min_lat1)
   <= Rmax (max_lon2 - min_lon2) (max_lat2 - min_lat2))%R →
  estimate_zoom min_lon1 max_lon1 min_lat1 max_lat1 = inr zoom1 →
  estimate_zoom min_lon2 max_lon2 min_lat2 max_lat2 = inr zoom2 →
  (zoom2 ≤ zoom1)%Z.
Proof.
  intros Hlon1 Hlat1 Hlon2 Hlat2 Hle Hzoom1 Hzoom2.
  rewrite estimate_zoom_nonneg in Hzoom1, Hzoom2 by done.
  injection Hzoom1 as <-. injection Hzoom2 as <-.
  destruct (decide ((max_lon1 - min_lon1)%R = 0%R ∧ (max_lat1 - min_lat1)%R = 0%R))
    as [|Hnz1]; [case_decide; lia|].
  destruct (decide ((max_lon2 - min_lon2)%R = 0%R ∧ (max_lat2 - min_lat2)%R = 0%R))
    as [[Hz1 Hz2]|Hnz2].
  - exfalso. pose proof (Rmax_pos_of_spans _ _ Hlon1 Hlat1 Hnz1) as Hpos.
    rewrite Hz1, Hz2 in Hle. unfold Rmax at 2 in Hle.
    destruct (Rle_dec 0 0); lra.
  - pose proof (Rmax_pos_of_spans _ _ Hlon1 Hlat1 Hnz1) as Hpos.
    pose proof (log2_le _ _ Hpos Hle) as Hlog.
    assert (trunc (12 - log2 (Rmax (max_lon2 - min_lon2) (max_lat2 - min_lat2)))
            ≤ trunc (12 - log2 (Rmax (max_lon1 - min_lon1) (max_lat1 - min_lat1))))%Z
      by (apply trunc_le; lra).
    lia.
Qed.

Lemma estimate_zoom_monotone_witness :
  (0 <= 13 - 12)%R ∧ (0 <= 50 - 48.5)%R ∧
  (0 <= 18.9 - 12.0)%R ∧ (0 <= 51.5 - 48.5)%R ∧
  (Rmax (13 - 12) (50 - 48.5) <= Rmax (18.9 - 12.0) (51.5 - 48.5))%R ∧
  estimate_zoom 12 13 48.5 50 = inr 11%Z ∧
  estimate_zoom 12.0 18.9 48.5 51.5 = inr 9%Z ∧
  (9 ≤ 11)%Z.
Proof.
  assert (Rmax (13 - 12) (50 - 48.5) <= Rmax (18.9 - 12.0) (51.5 - 48.5))%R as Hle.
  { case_min_max. }
  assert (estimate_zoom 12 13 48.5 50 = inr 11%Z) as Hzoom1.
  { apply estimate_zoom_11; [lra|lra|case_min_max]. }
  assert (estimate_zoom 12.0 18.9 48.5 51.5 = inr 9%Z) as Hzoom2.
  { apply estimate_zoom_9; [lra|lra|case_min_max]. }
  do 4 (split; [lra|]). split; [exact Hle|].
  split; [exact Hzoom1|]. split; [exact Hzoom2|].
  apply (estimate_zoom_monotone 12 13 48.5 50 12.0 18.9 48.5 51.5 11 9);
    [lra|lra|lra|lra|exact Hle|exact Hzoom1|exact Hzoom2].
Defined.

(** ** Bounds calculator *)

Lemma foldl_Rmin_spec l x : is_minimum (foldl Rmin x l) (x :: l).
Proof.
  revert x. induction l as [|y l IH]; intros x; simpl.
  - split; [apply list_elem_of_here|].
    intros z Hz. apply list_elem_of_singleton in Hz. lra.
  - destruct (IH (Rmin x y)) as [Hin Hle]. split.
    + apply elem_of_cons in Hin as [Heq|Hin].
      * rewrite Heq. unfold Rmin.
        destruct (Rle_dec x y); [left|right; left].
      * by do 2 right.
    + intros z Hz.
      assert (foldl Rmin (Rmin x y) l <= Rmin x y)%R as Hm by (apply Hle; left).
      pose proof (Rmin_l x y). pose proof (Rmin_r x y).
      apply elem_of_cons in Hz as [->|Hz]; [lra|].
      apply elem_of_cons in Hz as [->|Hz]; [lra|].
      apply Hle. by right.
Qed.

Lemma foldl_Rmax_spec l x : is_maximum (foldl Rmax x l) (x :: l).
Proof.
  revert x. induction l as [|y l IH]; intros x; simpl.
  - split; [apply list_elem_of_here|].
    intros z Hz. apply list_elem_of_singleton in Hz. lra.
  - destruct (IH (Rmax x y)) as [Hin Hle]. split.
    + apply elem_of_cons in Hin as [Heq|Hin].
      * rewrite Heq. unfold Rmax.
        destruct (Rle_dec x y); [right; left|left].
      * by do 2 right.
    + intros z Hz.
      assert (Rmax x y <= foldl Rmax (Rmax x y) l)%R as Hm by (apply Hle; left).
      pose proof (Rmax_l x y). pose proof (Rmax_r x y).
      apply elem_of_cons in Hz as [->|Hz]; [lra|].
      apply elem_of_cons in Hz as [->|Hz]; [lra|].
      apply Hle. by right.
Qed.

Lemma py_min_spec l : l ≠ [] → ∃ m, py_min l = inr m ∧ is_minimum m l.
Proof.
  destruct l as [|x l]; [done|]. intros _. eexists. split; [done|].
  apply foldl_Rmin_spec.
Qed.

Lemma py_max_spec l : l ≠ [] → ∃ m, py_max l = inr m ∧ is_maximum m l.
Proof.
  destruct l as [|x l]; [done|]. intros _. eexists. split; [done|].
  apply foldl_Rmax_spec.
Qed.

Lemma minimum_le_maximum a b l : is_minimum a l → is_maximum b l → (a <= b)%R.
Proof. intros [Ha _] [_ Hb]. by apply Hb. Qed.

(** [calculate_bounds] on two non-empty lists: the extrema of each list. *)
Lemma calculate_bounds_lists (longitudes latitudes : list float) :
  longitudes ≠ [] → latitudes ≠ [] →
  ∃ min_lon max_lon min_lat max_lat : float,
    calculate_bounds longitudes latitudes = inr (min_lon, max_lon, min_lat, max_lat)
    ∧ is_minimum min_lon longitudes ∧ is_maximum max_lon longitudes
    ∧ is_minimum min_lat latitudes ∧ is_maximum max_lat latitudes.
Proof.
  intros Hlon Hlat.
  destruct (py_min_spec _ Hlon) as (a & Ha & ?).
  destruct (py_max_spec _ Hlon) as (b & Hb & ?).
  destruct (py_min_spec _ Hlat) as (c & Hc & ?).
  destruct (py_max_spec _ Hlat) as (d & Hd & ?).
  exists a, b, c, d. unfold calculate_bounds.
  rewrite Ha, Hb, Hc, Hd. done.
Qed.

Lemma fmap_not_nil {A B} (f : A → B) (l : list A) : l ≠ [] → f <$> l ≠ [].
Proof. by destruct l. Qed.

(** The worked example of the specification. *)
Lemma calculate_bounds_example :
  calculate_bounds [12.5; 13.0; 12.0]%R [49.0; 50.0; 48.5]%R
  = inr (12.0, 13.0, 48.5, 50.0)%R.
Proof.
  unfold calculate_bounds, py_min, py_max. cbn [foldl mbind result_bind mret result_ret].
  case_min_max; reflexivity.
Qed.

(** C6. On a non-empty coordinate set, [calculate_bounds] returns
    (min_lon, max_lon, min_lat, max_lat), each the minimum or the maximum
    of its own axis; so min_lon <= max_lon and min_lat <= max_lat.  On the
    set (12.5, 49.0), (13.0, 50.0), (12.0, 48.5) it returns
    (12.0, 13.0, 48.5, 50.0). *)
Theorem calculate_bounds_correct :
  (∀ cs : list (float * float),
     cs ≠ [] →
     ∃ min_lon max_lon min_lat max_lat : float,
       calculate_bounds cs.*1 cs.*2 = inr (min_lon, max_lon, min_lat, max_lat)
       ∧ is_minimum min_lon cs.*1 ∧ is_maximum max_lon cs.*1
       ∧ is_minimum min_lat cs.*2 ∧ is_maximum max_lat cs.*2
       ∧ (min_lon <= max_lon)%R ∧ (min_lat <= max_lat)%R)
  ∧ calculate_bounds [12.5; 13.0; 12.0]%R [49.0; 50.0; 48.5]%R
    = inr (12.0, 13.0, 48.5, 50.0)%R.
Proof.
  split.
  - intros cs Hcs.
    destruct (calculate_bounds_lists cs.*1 cs.*2) as (a & b & c & d & Heq & ? & ? & ? & ?);
      [by apply fmap_not_nil..|].
    exists a, b, c, d. split_and!; try done; by eapply minimum_le_maximum.
  - apply calculate_bounds_example.
Qed.

Lemma calculate_bounds_correct_witness :
  [(12.5, 49.0); (13.0, 50.0); (12.0, 48.5)]%R ≠ [] ∧
  ∃ min_lon max_lon min_lat max_lat : float,
    calculate_bounds [12.5; 13.0; 12.0]%R [49.0; 50.0; 48.5]%R
    = inr (min_lon, max_lon, min_lat, max_lat)
    ∧ (min_lon <= max_lon)%R ∧ (min_lat <= max_lat)%R.
Proof.
  split; [discriminate|].
  destruct (proj1 calculate_bounds_correct
              [(12.5, 49.0); (13.0, 50.0); (12.0, 48.5)]%R)
    as (a & b & c & d & Heq & _ & _ & _ & _ & Hlon & Hlat); [discriminate|].
  exists a, b, c, d. split; [exact Heq|]. split; assumption.
Defined.

(** C9. On the empty coordinate set [calculate_bounds] returns nothing: it
    raises the [ValueError] of [min] on an empty list. *)
Theorem calculate_bounds_empty :
  calculate_bounds [] [] = inl ValueError
  ∧ ∀ bounds, calculate_bounds [] [] ≠ inr bounds.
Proof. split; [reflexivity|]. intros bounds. discriminate. Qed.

(** ** Zoom of a track inside the Czech bounding box *)

Lemma log2_8 : log2 8 = 3%R.
Proof.
  unfold log2. pose proof ln_2_pos.
  replace 8%R with (2 * (2 * 2))%R by lra.
  rewrite !ln_mult by lra. field. lra.
Qed.

Lemma trunc_IZR z : trunc (IZR z) = z.
Proof. unfold trunc. case_decide; [apply ZfloorZ|]. unfold Zceil. rewrite ZfloorNZ. lia. Qed.

Lemma clamped_zoom_ge_9 m :
  (0 < m <= 8)%R → (9 ≤ Z.max 0 (Z.min (trunc (12 - log2 m)) 19))%Z.
Proof.
  intros [Hpos Hle]. pose proof (log2_le _ _ Hpos Hle) as Hlog. rewrite log2_8 in Hlog.
  assert (trunc 9 ≤ trunc (12 - log2 m))%Z as Ht by (apply trunc_le; lra).
  rewrite (trunc_IZR 9) in Ht. lia.
Qed.

Lemma in_cz_fst (cs : list (float * float)) x :
  Forall in_cz cs → x ∈ cs.*1 → (LON_MIN <= x <= LON_MAX)%R.
Proof.
  intros Hall Hx. apply list_elem_of_fmap in Hx as (p & -> & Hp).
  rewrite Forall_forall in Hall. by destruct (Hall p Hp).
Qed.

Lemma in_cz_snd (cs : list (float * float)) y :
  Forall in_cz cs → y ∈ cs.*2 → (LAT_MIN <= y <= LAT_MAX)%R.
Proof.
  intros Hall Hy. apply list_elem_of_fmap in Hy as (p & -> & Hp).
  rewrite Forall_forall in Hall. by destruct (Hall p Hp).
Qed.

(** C10. On a non-empty coordinate set whose points all lie in the box
    from 12.0 to 18.9 by 48.5 to 51.5, as every output of [read_gps_data]
    does, the spans of the calculated bounds are at most 6.9 degrees and
    [estimate_zoom] of these bounds returns at least 9. *)
Theorem zoom_in_cz_at_least_9 (cs : list (float * float)) :
  cs ≠ [] → Forall in_cz cs →
  ∃ (min_lon max_lon min_lat max_lat : float) (zoom : Z),
    calculate_bounds cs.*1 cs.*2 = inr (min_lon, max_lon, min_lat, max_lat)
    ∧ (max_lon - min_lon <= 6.9)%R ∧ (max_lat - min_lat <= 6.9)%R
    ∧ estimate_zoom min_lon max_lon min_lat max_lat = inr zoom
    ∧ (9 ≤ zoom)%Z.
Proof.
  intros Hcs Hall.
  destruct (calculate_bounds_lists cs.*1 cs.*2)
    as (a & b & c & d & Heq & Ha & Hb & Hc & Hd); [by apply fmap_not_nil..|].
  pose proof (minimum_le_maximum _ _ _ Ha Hb) as Hab.
  pose proof (minimum_le_maximum _ _ _ Hc Hd) as Hcd.
  pose proof (in_cz_fst _ _ Hall (proj1 Ha)) as Ha'.
  pose proof (in_cz_fst _ _ Hall (proj1 Hb)) as Hb'.
  pose proof (in_cz_snd _ _ Hall (proj1 Hc)) as Hc'.
  pose proof (in_cz_snd _ _ Hall (proj1 Hd)) as Hd'.
  unfold LON_MIN, LON_MAX in Ha', Hb'. unfold LAT_MIN, LAT_MAX in Hc', Hd'.
  exists a, b, c, d. eexists. split; [exact Heq|].
  split; [lra|]. split; [lra|].
  split; [apply estimate_zoom_nonneg; lra|].
  case_decide as Hz; [lia|]. apply clamped_zoom_ge_9. split.
  - apply Rmax_pos_of_spans; [lra..|done].
  - apply Rmax_lub; lra.
Qed.

Lemma zoom_in_cz_at_least_9_witness :
  [(12.5, 49.0); (13.0, 50.0); (12.0, 48.5)]%R ≠ []
  ∧ Forall in_cz [(12.5, 49.0); (13.0, 50.0); (12.0, 48.5)]%R
  ∧ ∃ zoom : Z, estimate_zoom 12.0 13.0 48.5 50.0 = inr zoom ∧ (9 ≤ zoom)%Z.
Proof.
  assert (Forall in_cz [(12.5, 49.0); (13.0, 50.0); (12.0, 48.5)]%R) as Hall.
  { repeat constructor; cbn [fst snd]; unfold LON_MIN, LON_MAX, LAT_MIN, LAT_MAX; lra. }
  split; [discriminate|]. split; [exact Hall|].
  destruct (zoom_in_cz_at_least_9 [(12.5, 49.0); (13.0, 50.0); (12.0, 48.5)]%R)
    as (a & b & c & d & zoom & Heq & _ & _ & Hzoom & Hge); [discriminate|exact Hall|].
  cbn [fmap list_fmap fst snd] in Heq.
  rewrite calculate_bounds_example in Heq.
  injection Heq as <- <- <- <-. by exists zoom.
Defined.

(** ** CSV reader *)

Section reader_properties.

Variable parse_float : string → option float.

Lemma in_cz_test longitude latitude :
  bool_decide (LON_MIN <= longitude <= LON_MAX)%R
  && bool_decide (LAT_MIN <= latitude <= LAT_MAX)%R
  = bool_decide (in_cz (longitude, latitude)).
Proof. unfold in_cz. cbn [fst snd]. repeat case_bool_decide; tauto. Qed.

(** One turn of the loop, with the binds spelled out. *)
Lemma read_rows_cons i r rows longitudes latitudes :
  read_rows parse_float i (r :: rows) longitudes latitudes =
  match float_field parse_float r "Longitude" with
  | inl e => ([], inl e)
  | inr longitude =>
      match float_field parse_float r "Latitude" with
      | inl e => ([], inl e)
      | inr latitude =>
          let echo := if bool_decide (i < 5)%nat
                      then [PrintRow i longitude latitude] else [] in
          if bool_decide (in_cz (longitude, latitude))
          then let '(out, res) := read_rows parse_float (S i) rows
                                    (longitudes ++ [longitude]) (latitudes ++ [latitude]) in
               (echo ++ out, res)
          else let '(out, res) := read_rows parse_float (S i) rows longitudes latitudes in
               (echo ++ PrintOutsideCZ longitude latitude :: out, res)
      end
  end.
Proof.
  cbn [read_rows]. unfold mbind, io_bind, lift, emit, mret, io_ret.
  destruct (float_field parse_float r "Longitude") as [e|longitude]; [done|].
  destruct (float_field parse_float r "Latitude") as [e|latitude]; [done|].
  rewrite in_cz_test.
  destruct (bool_decide (i < 5)%nat); destruct (bool_decide (in_cz _));
    destruct (read_rows _ _ _ _ _) as [out res]; done.
Qed.

(** On parsed rows the loop returns, and appends the pairs inside the box,
    in row order, to what it was given. *)
Lemma read_rows_filter rows pairs :
  Forall2 (row_parses parse_float) rows pairs →
  ∀ i longitudes latitudes,
    ∃ out, read_rows parse_float i rows longitudes latitudes
           = (out, inr (longitudes ++ (filter in_cz pairs).*1,
                        latitudes ++ (filter in_cz pairs).*2)).
Proof.
  induction 1 as [|r [longitude latitude] rows pairs [Hlon Hlat] _ IH];
    intros i longitudes latitudes.
  - exists []. cbn. by rewrite !app_nil_r.
  - rewrite read_rows_cons. cbn [fst snd] in Hlon, Hlat. rewrite Hlon, Hlat.
    cbv zeta. case_bool_decide as Hin.
    + destruct (IH (S i) (longitudes ++ [longitude]) (latitudes ++ [latitude]))
        as [out ->].
      eexists. rewrite filter_cons_True by done.
      rewrite !fmap_cons, <- !app_assoc. reflexivity.
    + destruct (IH (S i) longitudes latitudes) as [out ->].
      eexists. rewrite filter_cons_False by done. reflexivity.
Qed.

(** C2. On parsed rows, [read_gps_data] returns two lists of equal length
    that hold exactly the pairs with longitude from 12.0 to 18.9 and
    latitude from 48.5 to 51.5, in their input order; every pair outside
    the box is left out. *)
Theorem read_gps_data_filters rows pairs :
  Forall2 (row_parses parse_float) rows pairs →
  ∃ out longitudes latitudes,
    read_gps_data parse_float rows = (out, inr (longitudes, latitudes))
    ∧ length longitudes = length latitudes
    ∧ zip longitudes latitudes = filter in_cz pairs
    ∧ zip longitudes latitudes `sublist_of` pairs
    ∧ (∀ p, p ∈ zip longitudes latitudes ↔ p ∈ pairs ∧ in_cz p)
    ∧ (∀ p, ¬ in_cz p → p ∉ zip longitudes latitudes).
Proof.
  intros Hrows. destruct (read_rows_filter _ _ Hrows 0%nat [] []) as [out Hout].
  exists out, (filter in_cz pairs).*1, (filter in_cz pairs).*2.
  assert (zip (filter in_cz pairs).*1 (filter in_cz pairs).*2 = filter in_cz pairs)
    as Hzip by apply zip_fst_snd.
  split; [exact Hout|]. split; [by rewrite !length_fmap|].
  split; [exact Hzip|]. rewrite Hzip. split; [apply sublist_filter|].
  split.
  - intros p. rewrite list_elem_of_filter. tauto.
  - intros p Hout' Hp. apply list_elem_of_filter in Hp. tauto.
Qed.

(** Whenever the loop returns, and for all rows, the two lists still have
    equal length and hold only points inside the box. *)
Lemma read_rows_accepted rows :
  ∀ i longitudes latitudes out longitudes' latitudes',
    read_rows parse_float i rows longitudes latitudes
    = (out, inr (longitudes', latitudes')) →
    length longitudes = length latitudes →
    Forall in_cz (zip longitudes latitudes) →
    length longitudes' = length latitudes'
    ∧ Forall in_cz (zip longitudes' latitudes').
Proof.
  induction rows as [|r rows IH];
    intros i longitudes latitudes out longitudes' latitudes' Hrun Hlen Hall.
  { cbn in Hrun. injection Hrun as _ <- <-. done. }
  rewrite read_rows_cons in Hrun.
  destruct (float_field parse_float r "Longitude") as [e|longitude]; [done|].
  destruct (float_field parse_float r "Latitude") as [e|latitude]; [done|].
  cbv zeta in Hrun. case_bool_decide as Hin.
  - destruct (read_rows parse_float (S i) rows _ _) as [out' res] eqn:Hrec.
    injection Hrun as _ ->.
    apply (IH _ _ _ _ _ _ Hrec).
    + rewrite !length_app. cbn [length]. lia.
    + rewrite zip_with_app by done. apply Forall_app. split; [done|].
      by constructor.
  - destruct (read_rows parse_float (S i) rows _ _) as [out' res] eqn:Hrec.
    injection Hrun as _ ->.
    by apply (IH _ _ _ _ _ _ Hrec).
Qed.

(** X1. Whenever [read_gps_data] returns, whatever the rows, its two lists
    have the same length and every point they hold, longitude with
    latitude, lies inside the box: no row can leave a longitude without
    its latitude or let an outside point through. *)
Lemma read_gps_data_accepted rows out longitudes latitudes :
  read_gps_data parse_float rows = (out, inr (longitudes, latitudes)) →
  length longitudes = length latitudes ∧ Forall in_cz (zip longitudes latitudes).
Proof.
  intros Hrun. by apply (read_rows_accepted rows 0%nat [] [] out); [|done|constructor].
Qed.

(** [plot_gps_path] is the reader followed by lines 61-103 on its lists. *)
Lemma plot_gps_path_after_read csv_file rows out longitudes latitudes :
  read_gps_data parse_float rows = (out, inr (longitudes, latitudes)) →
  plot_gps_path parse_float csv_file rows
  = (out ++ (plot_coordinates csv_file longitudes latitudes).1,
     (plot_coordinates csv_file longitudes latitudes).2).
Proof.
  intros Hrun. unfold plot_gps_path. rewrite Hrun. unfold mbind, io_bind.
  by destruct (plot_coordinates csv_file longitudes latitudes).
Qed.

End reader_properties.

Lemma example_rows_parse :
  Forall2 (row_parses example_float) example_rows [(13.5, 49.0); (20.0, 49.0)]%R.
Proof. repeat constructor. Qed.

Lemma example_pairs_filter :
  filter in_cz [(13.5, 49.0); (20.0, 49.0)]%R = [(13.5, 49.0)]%R.
Proof.
  rewrite filter_cons_True, filter_cons_False; [done|..];
    unfold in_cz, LON_MIN, LON_MAX, LAT_MIN, LAT_MAX; cbn [fst snd]; lra.
Qed.

Lemma read_gps_data_filters_witness :
  Forall2 (row_parses example_float) example_rows [(13.5, 49.0); (20.0, 49.0)]%R
  ∧ ∃ out longitudes latitudes,
      read_gps_data example_float example_rows = (out, inr (longitudes, latitudes))
      ∧ length longitudes = length latitudes
      ∧ zip longitudes latitudes = [(13.5, 49.0)]%R.
Proof.
  split; [exact example_rows_parse|].
  destruct (read_gps_data_filters example_float _ _ example_rows_parse)
    as (out & longitudes & latitudes & Hout & Hlen & Hzip & _).
  exists out, longitudes, latitudes. rewrite example_pairs_filter in Hzip.
  split; [exact Hout|]. split; [exact Hlen|exact Hzip].
Defined.

Section reader_errors.

Variable parse_float : string → option float.

Lemma float_field_unparseable r key :
  unparseable parse_float r key → float_field parse_float r key = inl ValueError.
Proof. intros (s & Hs & Hnone). unfold float_field. by rewrite Hs, Hnone. Qed.

(** With the column present as a text, [float(row[key])] can only fail as
    a parse error. *)
Lemma float_field_text_error r key s e :
  r !! key = Some (Some s) → float_field parse_float r key = inl e → e = ValueError.
Proof.
  intros Hs. unfold float_field. rewrite Hs.
  destruct (parse_float s); congruence.
Qed.

(** A row with a malformed field stops the loop, whatever came before it. *)
Lemma read_rows_parse_error rows :
  Exists (λ r, unparseable parse_float r "Longitude"
               ∨ unparseable parse_float r "Latitude") rows →
  ∀ i longitudes latitudes,
    ∃ out e, read_rows parse_float i rows longitudes latitudes = (out, inl e)
             ∧ (Forall has_columns rows → e = ValueError).
Proof.
  induction rows as [|r rows IH]; intros Hbad i longitudes latitudes.
  { by apply Exists_nil in Hbad. }
  rewrite read_rows_cons.
  destruct (float_field parse_float r "Longitude") as [e|longitude] eqn:Hlon.
  { exists [], e. split; [done|]. intros Hcols.
    apply Forall_cons in Hcols as [(s1 & s2 & Hs1 & Hs2) _].
    exact (float_field_text_error _ _ _ _ Hs1 Hlon). }
  destruct (float_field parse_float r "Latitude") as [e|latitude] eqn:Hlat.
  { exists [], e. split; [done|]. intros Hcols.
    apply Forall_cons in Hcols as [(s1 & s2 & Hs1 & Hs2) _].
    exact (float_field_text_error _ _ _ _ Hs2 Hlat). }
  apply Exists_cons in Hbad as [[Hbad|Hbad]|Hbad].
  - apply float_field_unparseable in Hbad. congruence.
  - apply float_field_unparseable in Hbad. congruence.
  - cbv zeta. case_bool_decide.
    + destruct (IH Hbad (S i) (longitudes ++ [longitude]) (latitudes ++ [latitude]))
        as (out & e & -> & He).
      do 2 eexists. split; [done|]. intros Hcols.
      apply Forall_cons in Hcols as [_ Hcols]. auto.
    + destruct (IH Hbad (S i) longitudes latitudes) as (out & e & -> & He).
      do 2 eexists. split; [done|]. intros Hcols.
      apply Forall_cons in Hcols as [_ Hcols]. auto.
Qed.

(** C7. If some row of the file has a "Longitude" or "Latitude" field that
    [float] rejects, [read_gps_data] returns no result: it raises, and the
    exception leaves [plot_gps_path] as it is, with nothing rendered.  On a
    table whose rows all have both columns the exception is the parse
    error, [ValueError]. *)
Theorem read_gps_data_parse_error csv_file rows :
  Exists (λ r, unparseable parse_float r "Longitude"
               ∨ unparseable parse_float r "Latitude") rows →
  ∃ out e,
    read_gps_data parse_float rows = (out, inl e)
    ∧ plot_gps_path parse_float csv_file rows = (out, inl e)
    ∧ (Forall has_columns rows → e = ValueError).
Proof.
  intros Hbad.
  destruct (read_rows_parse_error rows Hbad 0%nat [] []) as (out & e & Hout & He).
  exists out, e. split; [exact Hout|]. split; [|exact He].
  unfold plot_gps_path, read_gps_data. rewrite Hout. reflexivity.
Qed.

End reader_errors.

Lemma example_bad_rows_unparseable :
  Exists (λ r, unparseable example_float r "Longitude"
               ∨ unparseable example_float r "Latitude") example_bad_rows.
Proof.
  apply Exists_cons_tl, Exists_cons_hd. right. by exists "49,0".
Qed.

Lemma example_bad_rows_columns : Forall has_columns example_bad_rows.
Proof.
  repeat constructor.
  - by exists "13.5", "49.0".
  - by exists "13.5", "49,0".
Qed.

Lemma read_gps_data_parse_error_witness :
  Exists (λ r, unparseable example_float r "Longitude"
               ∨ unparseable example_float r "Latitude") example_bad_rows
  ∧ ∃ out,
      read_gps_data example_float example_bad_rows = (out, inl ValueError)
      ∧ plot_gps_path example_float "track.csv" example_bad_rows = (out, inl ValueError).
Proof.
  split; [exact example_bad_rows_unparseable|].
  destruct (read_gps_data_parse_error example_float "track.csv" _
              example_bad_rows_unparseable) as (out & e & Hread & Hplot & He).
  rewrite (He example_bad_rows_columns) in Hread, Hplot.
  exists out. split; [exact Hread|exact Hplot].
Defined.

(** A file whose header has no "Longitude" column: its row has a latitude
    that [float] rejects, yet what the reader raises is the [KeyError] of
    line 21, met before any field is parsed. *)
Lemma no_longitude_column_run :
  unparseable example_float {[ "Latitude" := Some "49,0" ]} "Latitude"
  ∧ read_gps_data example_float [{[ "Latitude" := Some "49,0" ]}]
    = ([], inl (KeyError "Longitude")).
Proof. split; [by exists "49,0"|reflexivity]. Qed.

(** Not every file with a malformed field ends in the parse error. *)
Lemma read_gps_data_parse_error_counterexample :
  ¬ ∀ (parse_float : string → option float) (rows : list row),
      Exists (λ r, unparseable parse_float r "Longitude"
                   ∨ unparseable parse_float r "Latitude") rows →
      ∃ out, read_gps_data parse_float rows = (out, inl ValueError).
Proof.
  intros Hclaim. destruct no_longitude_column_run as [Hbad Hrun].
  destruct (Hclaim example_float [{[ "Latitude" := Some "49,0" ]}]) as [out Hout].
  { apply Exists_cons_hd. by right. }
  rewrite Hrun in Hout. discriminate.
Qed.

(** ** Renderer guards *)

(** The first guard: too few points in either list. *)
Lemma plot_coordinates_skip csv_file (longitudes latitudes : list float) :
  (length longitudes < 1000 ∨ length latitudes < 1000)%nat →
  plot_coordinates csv_file longitudes latitudes = ([PrintSkipping csv_file], inr tt).
Proof.
  intros Hfew. unfold plot_coordinates.
  destruct Hfew; repeat case_bool_decide; try lia; reflexivity.
Qed.

Lemma length_not_nil {A} (l : list A) : (0 < length l)%nat → l ≠ [].
Proof. destruct l; cbn; [lia|done]. Qed.

(** Past both guards the figure is drawn, with the bounds and the zoom of
    the two lists. *)
Lemma plot_coordinates_render csv_file (longitudes latitudes : list float) :
  (1000 ≤ length longitudes)%nat → (1000 ≤ length latitudes)%nat →
  ∃ (min_lon max_lon min_lat max_lat : float) (zoom : Z),
    calculate_bounds longitudes latitudes = inr (min_lon, max_lon, min_lat, max_lat)
    ∧ estimate_zoom min_lon max_lon min_lat max_lat = inr zoom
    ∧ plot_coordinates csv_file longitudes latitudes
      = ([GeoDataFrame (zip longitudes latitudes); ToCrs; Plot;
          SetLimits min_lon min_lat max_lon max_lat;
          PrintZoom zoom; AddBasemap zoom; Show csv_file], inr tt).
Proof.
  intros Hlon Hlat.
  destruct (calculate_bounds_lists longitudes latitudes)
    as (a & b & c & d & Hbounds & Ha & Hb & Hc & Hd);
    [apply length_not_nil; lia..|].
  pose proof (minimum_le_maximum _ _ _ Ha Hb) as Hab.
  pose proof (minimum_le_maximum _ _ _ Hc Hd) as Hcd.
  assert (0 <= b - a)%R as Hlon_span by lra.
  assert (0 <= d - c)%R as Hlat_span by lra.
  pose proof (estimate_zoom_nonneg a b c d Hlon_span Hlat_span) as Hzoom.
  exists a, b, c, d. eexists. split; [exact Hbounds|]. split; [exact Hzoom|].
  unfold plot_coordinates.
  rewrite (bool_decide_eq_false_2 (length longitudes < 1000)%nat) by lia.
  rewrite (bool_decide_eq_false_2 (length latitudes < 1000)%nat) by lia.
  rewrite (bool_decide_eq_false_2 (length longitudes = 0)%nat) by lia.
  rewrite (bool_decide_eq_false_2 (length latitudes = 0)%nat) by lia.
  cbn [orb]. rewrite Hbounds. unfold mbind, io_bind, lift, emit.
  rewrite Hzoom. reflexivity.
Qed.

Lemma foldl_Rmin_replicate n x : foldl Rmin x (replicate n x) = x.
Proof.
  induction n as [|n IH]; [done|]. cbn [replicate foldl].
  replace (Rmin x x) with x; [done|].
  unfold Rmin. by destruct (Rle_dec x x).
Qed.

Lemma foldl_Rmax_replicate n x : foldl Rmax x (replicate n x) = x.
Proof.
  induction n as [|n IH]; [done|]. cbn [replicate foldl].
  replace (Rmax x x) with x; [done|].
  unfold Rmax. by destruct (Rle_dec x x).
Qed.

Lemma calculate_bounds_replicate n m longitude latitude :
  calculate_bounds (replicate (S n) longitude) (replicate (S m) latitude)
  = inr (longitude, longitude, latitude, latitude).
Proof.
  cbn [replicate]. unfold calculate_bounds, py_min, py_max.
  by rewrite !foldl_Rmin_replicate, !foldl_Rmax_replicate.
Qed.

(** The end-to-end case of the specification: 1200 accepted rows, all at
    the same point, are drawn with the basemap at zoom 19. *)
Example plot_1200_identical_points csv_file longitude latitude :
  plot_coordinates csv_file (replicate 1200 longitude) (replicate 1200 latitude)
  = ([GeoDataFrame (replicate 1200 (longitude, latitude)); ToCrs; Plot;
      SetLimits longitude latitude longitude latitude;
      PrintZoom 19; AddBasemap 19; Show csv_file], inr tt).
Proof.
  destruct (plot_coordinates_render csv_file
              (replicate 1200 longitude) (replicate 1200 latitude))
    as (a & b & c & d & zoom & Hbounds & Hzoom & ->);
    [rewrite length_replicate; lia..|].
  rewrite (calculate_bounds_replicate 1199 1199) in Hbounds.
  injection Hbounds as <- <- <- <-.
  rewrite estimate_zoom_point in Hzoom. injection Hzoom as <-.
  by rewrite zip_with_replicate.
Qed.



Section reader_output.

Variable parse_float : string → option float.

(** The reader prints its own two kinds of lines and nothing else. *)
Lemma read_rows_events rows :
  ∀ i longitudes latitudes,
    Forall is_reader_event (read_rows parse_float i rows longitudes latitudes).1.
Proof.
  induction rows as [|r rows IH]; intros i longitudes latitudes.
  { cbn. constructor. }
  rewrite read_rows_cons.
  destruct (float_field parse_float r "Longitude") as [e|longitude]; [constructor|].
  destruct (float_field parse_float r "Latitude") as [e|latitude]; [constructor|].
  cbv zeta. case_bool_decide.
  - specialize (IH (S i) (longitudes ++ [longitude]) (latitudes ++ [latitude])).
    destruct (read_rows _ _ _ _ _) as [out res]. cbn [fst] in *.
    apply Forall_app. split; [|exact IH].
    case_bool_decide; repeat constructor.
  - specialize (IH (S i) longitudes latitudes).
    destruct (read_rows _ _ _ _ _) as [out res]. cbn [fst] in *.
    apply Forall_app. split; [case_bool_decide; repeat constructor|].
    constructor; [exact I|exact IH].
Qed.

End reader_output.

(** The renderer never prints the line of its second guard. *)
Lemma plot_coordinates_no_valid_data csv_file longitudes latitudes f :
  PrintNoValidData f ∉ (plot_coordinates csv_file longitudes latitudes).1.
Proof.
  destruct (decide (length longitudes < 1000 ∨ length latitudes < 1000)%nat)
    as [Hfew|Hmany].
  - rewrite plot_coordinates_skip by done. cbn [fst].
    intros Hin. apply list_elem_of_singleton in Hin. discriminate.
  - destruct (plot_coordinates_render csv_file longitudes latitudes)
      as (a & b & c & d & zoom & _ & _ & ->); [lia..|].
    cbn [fst]. intros Hin.
    repeat (apply elem_of_cons in Hin as [Hin|Hin]; [discriminate|]).
    by apply elem_of_nil in Hin.
Qed.

(** C8. An empty coordinate set is already turned away by the first guard
    (fewer than 1000 points), so the branch of the second guard, the one
    that prints "No valid GPS data to plot", is never taken: no run of
    [plot_gps_path] prints that line. *)
Theorem no_valid_data_branch_unreachable :
  (∀ csv_file, plot_coordinates csv_file [] [] = ([PrintSkipping csv_file], inr tt))
  ∧ (∀ csv_file longitudes latitudes f,
       PrintNoValidData f ∉ (plot_coordinates csv_file longitudes latitudes).1)
  ∧ (∀ parse_float csv_file rows f,
       PrintNoValidData f ∉ (plot_gps_path parse_float csv_file rows).1).
Proof.
  split; [done|]. split; [apply plot_coordinates_no_valid_data|].
  intros parse_float csv_file rows f. unfold plot_gps_path, read_gps_data.
  pose proof (read_rows_events parse_float rows 0%nat [] []) as Hread.
  destruct (read_rows parse_float 0 rows [] []) as [out [e|[longitudes latitudes]]];
    cbn [fst] in Hread; unfold mbind, io_bind.
  - cbn [fst]. intros Hin. rewrite Forall_forall in Hread. exact (Hread _ Hin).
  - pose proof (plot_coordinates_no_valid_data csv_file longitudes latitudes f) as Hplot.
    destruct (plot_coordinates csv_file longitudes latitudes) as [out' res].
    cbn [fst] in *. intros Hin. apply elem_of_app in Hin as [Hin|Hin]; [|done].
    rewrite Forall_forall in Hread. exact (Hread _ Hin).
Qed.

(** * Further properties *)

(** ** When [estimate_zoom] raises *)

Lemma np_log_2 : np_log 2 = Finite (ln 2).
Proof. apply np_log_pos. lra. Qed.

(** [estimate_zoom] by cases on the spans: 19 on two zero spans; a level
    from the formula when the larger span is positive; [OverflowError]
    when the larger span is zero and the other one negative
    ([log 0 = -inf]); [ValueError] when both spans are negative ([log] of
    a negative number is [nan]). *)
Lemma estimate_zoom_outcome min_lon max_lon min_lat max_lat :
  let m := Rmax (max_lon - min_lon) (max_lat - min_lat) in
  estimate_zoom min_lon max_lon min_lat max_lat =
  if decide ((max_lon - min_lon = 0)%R ∧ (max_lat - min_lat = 0)%R) then inr 19%Z
  else if decide (0 < m)%R
       then inr (Z.max 0 (Z.min (trunc (12 - log2 m)) 19))
       else if decide (m = 0%R) then inl OverflowError
       else inl ValueError.
Proof.
  intros m. unfold estimate_zoom. cbv zeta. fold m.
  rewrite both_zero_test. case_bool_decide as Hz.
  { by rewrite decide_True. }
  rewrite decide_False by done.
  destruct (decide (0 < m)%R) as [Hpos|Hnpos].
  { by rewrite zoom_formula_pos. }
  rewrite np_log_2. unfold np_log. rewrite (decide_False (P := (0 < m)%R)) by done.
  destruct (decide (m = 0%R)) as [Hm0|Hmneg].
  - cbn [f64_div f64_sub py_int mbind result_bind xorb negb].
    reflexivity.
  - reflexivity.
Qed.

(** X2. On a box that is inverted on an axis and has no positive span,
    [estimate_zoom] raises: [OverflowError] when one span is zero and the
    other negative, [ValueError] when both are negative. *)
Theorem estimate_zoom_raises_on_inverted min_lon max_lon min_lat max_lat :
  let lon_span := (max_lon - min_lon)%R in
  let lat_span := (max_lat - min_lat)%R in
  (((lon_span = 0 ∧ lat_span < 0) ∨ (lon_span < 0 ∧ lat_span = 0))%R →
     estimate_zoom min_lon max_lon min_lat max_lat = inl OverflowError)
  ∧ ((lon_span < 0)%R → (lat_span < 0)%R →
       estimate_zoom min_lon max_lon min_lat max_lat = inl ValueError).
Proof.
  intros lon_span lat_span. rewrite estimate_zoom_outcome. cbv zeta.
  fold lon_span lat_span.
  assert (Rmax lon_span lat_span = lon_span ∨ Rmax lon_span lat_span = lat_span)
    as Hmax by (unfold Rmax; destruct (Rle_dec _ _); tauto).
  pose proof (Rmax_l lon_span lat_span) as Hl.
  pose proof (Rmax_r lon_span lat_span) as Hr.
  split.
  - intros Hspans.
    rewrite decide_False by (intros [? ?]; destruct Hspans; lra).
    rewrite decide_False by (destruct Hspans, Hmax; lra).
    rewrite decide_True by (destruct Hspans, Hmax; lra). reflexivity.
  - intros Hlon Hlat.
    rewrite decide_False by (intros [? ?]; lra).
    rewrite decide_False by (destruct Hmax; lra).
    rewrite decide_False by (destruct Hmax; lra). reflexivity.
Qed.

Lemma estimate_zoom_raises_on_inverted_witness :
  ((0 - 0 = 0 ∧ 0 - 1 < 0) ∨ (0 - 0 < 0 ∧ 0 - 1 = 0))%R
  ∧ estimate_zoom 0 0 1 0 = inl OverflowError
  ∧ (0 - 1 < 0)%R ∧ estimate_zoom 1 0 1 0 = inl ValueError.
Proof.
  assert (((0 - 0 = 0 ∧ 0 - 1 < 0) ∨ (0 - 0 < 0 ∧ 0 - 1 = 0))%R) as Hspans
    by (left; lra).
  assert (0 - 1 < 0)%R as Hneg by lra.
  split; [exact Hspans|].
  split; [exact (proj1 (estimate_zoom_raises_on_inverted 0 0 1 0) Hspans)|].
  split; [exact Hneg|].
  exact (proj2 (estimate_zoom_raises_on_inverted 1 0 1 0) Hneg Hneg).
Defined.

(** X5. The zoom level depends on the two spans only, and not on which axis
    carries which span: a box and its transpose, wherever they lie, get
    the same result. *)
Theorem estimate_zoom_spans_only
    min_lon max_lon min_lat max_lat min_lon' max_lon' min_lat' max_lat' :
  (max_lon - min_lon = max_lat' - min_lat')%R →
  (max_lat - min_lat = max_lon' - min_lon')%R →
  estimate_zoom min_lon max_lon min_lat max_lat
  = estimate_zoom min_lon' max_lon' min_lat' max_lat'.
Proof.
  intros Hlon Hlat. rewrite !estimate_zoom_outcome. cbv zeta.
  rewrite Hlon, Hlat, (Rmax_comm (max_lat' - min_lat')).
  destruct (decide (_ ∧ _)) as [Hz|Hnz], (decide (_ ∧ _)) as [Hz'|Hnz'];
    try tauto; reflexivity.
Qed.

Lemma estimate_zoom_spans_only_witness :
  (13 - 12 = 1 - 0)%R ∧ (50 - 48.5 = 1.5 - 0)%R
  ∧ estimate_zoom 12 13 48.5 50 = estimate_zoom 0 1.5 0 1.
Proof.
  split; [lra|]. split; [lra|]. apply estimate_zoom_spans_only; lra.
Defined.

(** ** More on the bounds calculator *)

Lemma py_min_inr l m : py_min l = inr m → is_minimum m l.
Proof.
  destruct l as [|x l]; [done|]. intros [= <-]. apply foldl_Rmin_spec.
Qed.

Lemma py_max_inr l m : py_max l = inr m → is_maximum m l.
Proof.
  destruct l as [|x l]; [done|]. intros [= <-]. apply foldl_Rmax_spec.
Qed.

(** What a returned tuple says about the two lists. *)
Lemma calculate_bounds_inr longitudes latitudes min_lon max_lon min_lat max_lat :
  calculate_bounds longitudes latitudes = inr (min_lon, max_lon, min_lat, max_lat) →
  is_minimum min_lon longitudes ∧ is_maximum max_lon longitudes
  ∧ is_minimum min_lat latitudes ∧ is_maximum max_lat latitudes.
Proof.
  unfold calculate_bounds.
  destruct (py_min longitudes) as [|a] eqn:Ha; [done|].
  destruct (py_max longitudes) as [|b] eqn:Hb; [done|].
  destruct (py_min latitudes) as [|c] eqn:Hc; [done|].
  destruct (py_max latitudes) as [|d] eqn:Hd; [done|].
  intros [= <- <- <- <-].
  auto using py_min_inr, py_max_inr.
Qed.

Lemma is_minimum_unique m m' l : is_minimum m l → is_minimum m' l → m = m'.
Proof.
  intros [Hin Hle] [Hin' Hle']. specialize (Hle _ Hin'). specialize (Hle' _ Hin). lra.
Qed.

Lemma is_maximum_unique m m' l : is_maximum m l → is_maximum m' l → m = m'.
Proof.
  intros [Hin Hle] [Hin' Hle']. specialize (Hle _ Hin'). specialize (Hle' _ Hin). lra.
Qed.

Lemma is_minimum_not_nil m l : is_minimum m l → l ≠ [].
Proof. intros [Hin _] ->. by apply elem_of_nil in Hin. Qed.

(** X6. [calculate_bounds] fails exactly when one of the two lists is
    empty, and then always with the [ValueError] of [min] or [max]; the
    lists need not have the same length for it to return. *)
Theorem calculate_bounds_raises (longitudes latitudes : list float) e :
  calculate_bounds longitudes latitudes = inl e
  ↔ e = ValueError ∧ (longitudes = [] ∨ latitudes = []).
Proof.
  split.
  - destruct longitudes as [|x longitudes]; [intros [= <-]; auto|].
    destruct latitudes as [|y latitudes]; [intros [= <-]; auto|].
    discriminate.
  - intros [-> [->| ->]]; [done|]. by destruct longitudes.
Qed.

Lemma py_min_permutation l l' : l ≡ₚ l' → py_min l = py_min l'.
Proof.
  intros Hperm. destruct l as [|x l].
  { apply Permutation_nil_l in Hperm. by subst. }
  destruct l' as [|x' l'].
  { by apply Permutation_nil_r in Hperm. }
  cbn [py_min]. f_equal. eapply is_minimum_unique; [apply foldl_Rmin_spec|].
  destruct (foldl_Rmin_spec l' x') as [Hin Hle]. split.
  - by rewrite Hperm.
  - intros y Hy. apply Hle. by rewrite <- Hperm.
Qed.

Lemma py_max_permutation l l' : l ≡ₚ l' → py_max l = py_max l'.
Proof.
  intros Hperm. destruct l as [|x l].
  { apply Permutation_nil_l in Hperm. by subst. }
  destruct l' as [|x' l'].
  { by apply Permutation_nil_r in Hperm. }
  cbn [py_max]. f_equal. eapply is_maximum_unique; [apply foldl_Rmax_spec|].
  destruct (foldl_Rmax_spec l' x') as [Hin Hle]. split.
  - by rewrite Hperm.
  - intros y Hy. apply Hle. by rewrite <- Hperm.
Qed.

(** X7. The bounds do not depend on the order of the rows: reordering
    either list leaves the result of [calculate_bounds] unchanged, also
    when that result is the exception. *)
Theorem calculate_bounds_permutation (longitudes latitudes longitudes' latitudes' : list float) :
  longitudes ≡ₚ longitudes' → latitudes ≡ₚ latitudes' →
  calculate_bounds longitudes latitudes = calculate_bounds longitudes' latitudes'.
Proof.
  intros Hlon Hlat. unfold calculate_bounds.
  rewrite (py_min_permutation _ _ Hlon), (py_max_permutation _ _ Hlon).
  by rewrite (py_min_permutation _ _ Hlat), (py_max_permutation _ _ Hlat).
Qed.

Lemma calculate_bounds_permutation_witness :
  [12.5; 13.0; 12.0]%R ≡ₚ [12.0; 12.5; 13.0]%R
  ∧ [49.0; 50.0; 48.5]%R ≡ₚ [50.0; 49.0; 48.5]%R
  ∧ calculate_bounds [12.0; 12.5; 13.0]%R [50.0; 49.0; 48.5]%R
    = inr (12.0, 13.0, 48.5, 50.0)%R.
Proof.
  assert ([12.5; 13.0; 12.0]%R ≡ₚ [12.0; 12.5; 13.0]%R) as Hlon.
  { symmetry. apply (Permutation_cons_append [12.5; 13.0]%R 12.0%R). }
  assert ([49.0; 50.0; 48.5]%R ≡ₚ [50.0; 49.0; 48.5]%R) as Hlat.
  { apply perm_swap. }
  split; [exact Hlon|]. split; [exact Hlat|].
  rewrite <- (calculate_bounds_permutation _ _ _ _ Hlon Hlat).
  apply calculate_bounds_example.
Defined.

(** X8. More points can only widen the box: if every longitude and latitude
    of one set occurs in a second set, the bounds of the second enclose
    the bounds of the first. *)
Theorem calculate_bounds_widen
    (longitudes latitudes longitudes' latitudes' : list float)
    min_lon max_lon min_lat max_lat :
  longitudes ⊆ longitudes' → latitudes ⊆ latitudes' →
  calculate_bounds longitudes latitudes = inr (min_lon, max_lon, min_lat, max_lat) →
  ∃ min_lon' max_lon' min_lat' max_lat' : float,
    calculate_bounds longitudes' latitudes'
    = inr (min_lon', max_lon', min_lat', max_lat')
    ∧ (min_lon' <= min_lon)%R ∧ (max_lon <= max_lon')%R
    ∧ (min_lat' <= min_lat)%R ∧ (max_lat <= max_lat')%R.
Proof.
  intros Hlon Hlat Hbounds.
  apply calculate_bounds_inr in Hbounds as ([Ha _] & [Hb _] & [Hc _] & [Hd _]).
  destruct (calculate_bounds_lists longitudes' latitudes')
    as (a' & b' & c' & d' & Hbounds' & [_ Ha'] & [_ Hb'] & [_ Hc'] & [_ Hd']).
  { intros ->. apply Hlon in Ha. by apply elem_of_nil in Ha. }
  { intros ->. apply Hlat in Hc. by apply elem_of_nil in Hc. }
  exists a', b', c', d'. split; [exact Hbounds'|]. split_and!; auto.
Qed.

Lemma calculate_bounds_widen_witness :
  ([12.5; 13.0]%R ⊆ [12.5; 13.0; 12.0]%R) ∧ ([49.0; 50.0]%R ⊆ [49.0; 50.0; 48.5]%R)
  ∧ ∃ min_lon' max_lon' min_lat' max_lat' : float,
      calculate_bounds [12.5; 13.0; 12.0]%R [49.0; 50.0; 48.5]%R
      = inr (min_lon', max_lon', min_lat', max_lat')
      ∧ (min_lon' <= 12.5)%R ∧ (13.0 <= max_lon')%R
      ∧ (min_lat' <= 49.0)%R ∧ (50.0 <= max_lat')%R.
Proof.
  assert ([12.5; 13.0]%R ⊆ [12.5; 13.0; 12.0]%R) as Hlon.
  { intros x Hx. apply elem_of_cons in Hx as [->|Hx]; [left|].
    apply list_elem_of_singleton in Hx as ->. right. left. }
  assert ([49.0; 50.0]%R ⊆ [49.0; 50.0; 48.5]%R) as Hlat.
  { intros x Hx. apply elem_of_cons in Hx as [->|Hx]; [left|].
    apply list_elem_of_singleton in Hx as ->. right. left. }
  split; [exact Hlon|]. split; [exact Hlat|].
  apply (calculate_bounds_widen _ _ _ _ 12.5 13.0 49.0 50.0 Hlon Hlat)%R.
  unfold calculate_bounds, py_min, py_max. cbn [foldl mbind result_bind mret result_ret].
  case_min_max; reflexivity.
Defined.

(** Spans that grow on both axes cannot raise the zoom level. *)
Lemma estimate_zoom_antitone
    min_lon max_lon min_lat max_lat min_lon' max_lon' min_lat' max_lat' :
  (0 <= max_lon - min_lon <= max_lon' - min_lon')%R →
  (0 <= max_lat - min_lat <= max_lat' - min_lat')%R →
  ∃ zoom zoom' : Z,
    estimate_zoom min_lon max_lon min_lat max_lat = inr zoom
    ∧ estimate_zoom min_lon' max_lon' min_lat' max_lat' = inr zoom'
    ∧ (zoom' ≤ zoom)%Z.
Proof.
  intros [Hlon Hlon'] [Hlat Hlat'].
  do 2 eexists. split; [apply estimate_zoom_nonneg; lra|].
  split; [apply estimate_zoom_nonneg; lra|].
  destruct (decide ((max_lon - min_lon)%R = 0%R ∧ (max_lat - min_lat)%R = 0%R))
    as [|Hnz]; [case_decide; lia|].
  assert (0 < Rmax (max_lon - min_lon) (max_lat - min_lat))%R as Hpos
    by (by apply Rmax_pos_of_spans).
  assert (Rmax (max_lon - min_lon) (max_lat - min_lat)
          <= Rmax (max_lon' - min_lon') (max_lat' - min_lat'))%R as Hle
    by case_min_max.
  rewrite decide_False by (intros [? ?]; revert Hle Hpos; case_min_max).
  pose proof (log2_le _ _ Hpos Hle) as Hlog.
  assert (trunc (12 - log2 (Rmax (max_lon' - min_lon') (max_lat' - min_lat')))
          ≤ trunc (12 - log2 (Rmax (max_lon - min_lon) (max_lat - min_lat))))%Z
    by (apply trunc_le; lra).
  lia.
Qed.

(** X9. Inside the Czech box more points can only lower the zoom: if
    every longitude and latitude of one set occurs in a second set whose
    values all lie in the box, [estimate_zoom] returns a level for the
    bounds of each set, and the level of the second set is at most the
    level of the first and at least 9. *)
Theorem zoom_drops_with_more_points
    (longitudes latitudes longitudes' latitudes' : list float)
    min_lon max_lon min_lat max_lat :
  longitudes ⊆ longitudes' → latitudes ⊆ latitudes' →
  Forall (λ x, LON_MIN <= x <= LON_MAX)%R longitudes' →
  Forall (λ y, LAT_MIN <= y <= LAT_MAX)%R latitudes' →
  calculate_bounds longitudes latitudes = inr (min_lon, max_lon, min_lat, max_lat) →
  ∃ (min_lon' max_lon' min_lat' max_lat' : float) (zoom zoom' : Z),
    calculate_bounds longitudes' latitudes'
    = inr (min_lon', max_lon', min_lat', max_lat')
    ∧ estimate_zoom min_lon max_lon min_lat max_lat = inr zoom
    ∧ estimate_zoom min_lon' max_lon' min_lat' max_lat' = inr zoom'
    ∧ (9 ≤ zoom' ≤ zoom)%Z.
Proof.
  intros Hlon Hlat Hbox_lon Hbox_lat Hbounds.
  rewrite Forall_forall in Hbox_lon. rewrite Forall_forall in Hbox_lat.
  apply calculate_bounds_inr in Hbounds as (Ha & Hb & Hc & Hd).
  pose proof (minimum_le_maximum _ _ _ Ha Hb) as Hab.
  pose proof (minimum_le_maximum _ _ _ Hc Hd) as Hcd.
  destruct Ha as [Ha _], Hb as [Hb _], Hc as [Hc _], Hd as [Hd _].
  destruct (calculate_bounds_lists longitudes' latitudes')
    as (a' & b' & c' & d' & Hbounds'
        & [Hina' Ha'] & [Hinb' Hb'] & [Hinc' Hc'] & [Hind' Hd']).
  { intros ->. apply Hlon in Ha. by apply elem_of_nil in Ha. }
  { intros ->. apply Hlat in Hc. by apply elem_of_nil in Hc. }
  pose proof (Ha' _ (Hlon _ Ha)). pose proof (Hb' _ (Hlon _ Hb)).
  pose proof (Hc' _ (Hlat _ Hc)). pose proof (Hd' _ (Hlat _ Hd)).
  pose proof (Hbox_lon _ Hina') as Hboxa. pose proof (Hbox_lon _ Hinb') as Hboxb.
  pose proof (Hbox_lat _ Hinc') as Hboxc. pose proof (Hbox_lat _ Hind') as Hboxd.
  unfold LON_MIN, LON_MAX in Hboxa, Hboxb. unfold LAT_MIN, LAT_MAX in Hboxc, Hboxd.
  destruct (estimate_zoom_antitone min_lon max_lon min_lat max_lat a' b' c' d')
    as (zoom & zoom' & Hzoom & Hzoom' & Hle); [lra..|].
  exists a', b', c', d', zoom, zoom'. split_and!; [done..| |done].
  rewrite estimate_zoom_nonneg in Hzoom' by lra. injection Hzoom' as <-.
  case_decide as Hz; [lia|]. apply clamped_zoom_ge_9. split.
  - apply Rmax_pos_of_spans; [lra..|done].
  - apply Rmax_lub; lra.
Qed.

Lemma zoom_drops_with_more_points_witness :
  ([12.5; 13.0]%R ⊆ [12.5; 13.0; 12.0]%R) ∧ ([49.0; 50.0]%R ⊆ [49.0; 50.0; 48.5]%R)
  ∧ Forall (λ x, LON_MIN <= x <= LON_MAX)%R [12.5; 13.0; 12.0]%R
  ∧ Forall (λ y, LAT_MIN <= y <= LAT_MAX)%R [49.0; 50.0; 48.5]%R
  ∧ ∃ zoom zoom' : Z,
      estimate_zoom 12.5 13.0 49.0 50.0 = inr zoom
      ∧ estimate_zoom 12.0 13.0 48.5 50.0 = inr zoom'
      ∧ (9 ≤ zoom' ≤ zoom)%Z.
Proof.
  assert ([12.5; 13.0]%R ⊆ [12.5; 13.0; 12.0]%R) as Hlon.
  { intros x Hx. apply elem_of_cons in Hx as [->|Hx]; [left|].
    apply list_elem_of_singleton in Hx as ->. right. left. }
  assert ([49.0; 50.0]%R ⊆ [49.0; 50.0; 48.5]%R) as Hlat.
  { intros x Hx. apply elem_of_cons in Hx as [->|Hx]; [left|].
    apply list_elem_of_singleton in Hx as ->. right. left. }
  assert (Forall (λ x, LON_MIN <= x <= LON_MAX)%R [12.5; 13.0; 12.0]%R) as Hbox_lon.
  { repeat (apply Forall_cons_2; [unfold LON_MIN, LON_MAX; lra|]). apply Forall_nil_2. }
  assert (Forall (λ y, LAT_MIN <= y <= LAT_MAX)%R [49.0; 50.0; 48.5]%R) as Hbox_lat.
  { repeat (apply Forall_cons_2; [unfold LAT_MIN, LAT_MAX; lra|]). apply Forall_nil_2. }
  split; [exact Hlon|]. split; [exact Hlat|].
  split; [exact Hbox_lon|]. split; [exact Hbox_lat|].
  destruct (zoom_drops_with_more_points _ _ _ _ 12.5 13.0 49.0 50.0
              Hlon Hlat Hbox_lon Hbox_lat)%R
    as (a' & b' & c' & d' & zoom & zoom' & Hbounds' & Hzoom & Hzoom' & Hle).
  { unfold calculate_bounds, py_min, py_max.
    cbn [foldl mbind result_bind mret result_ret]. case_min_max; reflexivity. }
  rewrite calculate_bounds_example in Hbounds'. injection Hbounds' as <- <- <- <-.
  by exists zoom, zoom'.
Defined.

(** ** More on the CSV reader *)

Lemma read_gps_data_accepted_witness :
  ∃ out longitudes latitudes,
    read_gps_data example_float example_rows = (out, inr (longitudes, latitudes))
    ∧ length longitudes = length latitudes
    ∧ Forall in_cz (zip longitudes latitudes).
Proof.
  destruct (read_rows_filter example_float _ _ example_rows_parse 0%nat [] [])
    as [out Hout].
  do 3 eexists. split; [exact Hout|].
  exact (read_gps_data_accepted example_float _ _ _ _ Hout).
Defined.

Section reader_diagnostics.

Variable parse_float : string → option float.

(** The loop over parsed rows followed by more rows: the parsed rows print
    their diagnostics and hand their accepted pairs on. *)
Lemma read_rows_app_parsed rows1 pairs :
  Forall2 (row_parses parse_float) rows1 pairs →
  ∀ rows2 i longitudes latitudes,
    read_rows parse_float i (rows1 ++ rows2) longitudes latitudes =
    let '(out, res) :=
      read_rows parse_float (i + length rows1) rows2
        (longitudes ++ (filter in_cz pairs).*1)
        (latitudes ++ (filter in_cz pairs).*2) in
    (diagnostics i pairs ++ out, res).
Proof.
  induction 1 as [|r [longitude latitude] rows1 pairs [Hlon Hlat] _ IH];
    intros rows2 i longitudes latitudes.
  - cbn [app length diagnostics filter list_filter fmap list_fmap].
    rewrite Nat.add_0_r, !app_nil_r. by destruct (read_rows _ _ _ _ _).
  - cbn [app length]. rewrite read_rows_cons.
    cbn [fst snd] in Hlon, Hlat. rewrite Hlon, Hlat. cbv zeta.
    rewrite Nat.add_succ_r. cbn [diagnostics fst snd].
    case_bool_decide as Hin.
    + rewrite IH, filter_cons_True by done. cbn [Nat.add].
      rewrite !fmap_cons, <- !app_assoc. cbn [fst snd app].
      destruct (read_rows _ _ _ _ _) as [out res].
      by rewrite <- !app_assoc.
    + rewrite IH, filter_cons_False by done. cbn [Nat.add].
      destruct (read_rows _ _ _ _ _) as [out res].
      by rewrite <- !app_assoc.
Qed.

(** On parsed rows: the whole result of the reader. *)
Lemma read_gps_data_parsed rows pairs :
  Forall2 (row_parses parse_float) rows pairs →
  read_gps_data parse_float rows
  = (diagnostics 0 pairs, inr ((filter in_cz pairs).*1, (filter in_cz pairs).*2)).
Proof.
  intros Hrows. unfold read_gps_data.
  rewrite <- (app_nil_r rows), (read_rows_app_parsed _ _ Hrows).
  cbn [read_rows mret io_ret app]. by rewrite app_nil_r.
Qed.

Lemma diagnostics_skip_count i pairs :
  length (filter is_skip_line (diagnostics i pairs)) + length (filter in_cz pairs)
  = length pairs.
Proof.
  revert i. induction pairs as [|p pairs IH]; intros i; [done|].
  cbn [diagnostics]. rewrite !filter_app, !length_app.
  specialize (IH (S i)).
  assert (length (filter is_skip_line
            (if bool_decide (i < 5)%nat then [PrintRow i p.1 p.2] else [])) = 0%nat)
    as -> by (by case_bool_decide).
  destruct (decide (in_cz p)) as [Hin|Hout].
  - rewrite bool_decide_eq_true_2, filter_cons_True by done.
    rewrite filter_nil. cbn [length]. lia.
  - rewrite bool_decide_eq_false_2, (filter_cons_False in_cz) by done.
    rewrite (filter_cons_True is_skip_line) by done.
    rewrite filter_nil. cbn [length]. lia.
Qed.

Lemma diagnostics_skip_lines i pairs longitude latitude :
  PrintOutsideCZ longitude latitude ∈ diagnostics i pairs
  ↔ (longitude, latitude) ∈ pairs ∧ ¬ in_cz (longitude, latitude).
Proof.
  revert i. induction pairs as [|[x y] pairs IH]; intros i.
  { cbn [diagnostics]. split; [intros H|intros [H _]]; by apply elem_of_nil in H. }
  cbn [diagnostics fst snd]. rewrite !elem_of_app, IH, elem_of_cons.
  split.
  - intros [Hecho|[Hskip|[Hin Hout]]].
    + case_bool_decide; [|by apply elem_of_nil in Hecho].
      by apply list_elem_of_singleton in Hecho.
    + case_bool_decide as Hcz; [by apply elem_of_nil in Hskip|].
      apply list_elem_of_singleton in Hskip. injection Hskip as -> ->. auto.
    + auto.
  - intros [[Heq|Hin] Hout].
    + injection Heq as -> ->. right. left.
      rewrite bool_decide_eq_false_2 by done. apply list_elem_of_here.
    + right. right. auto.
Qed.

(** X10. On parsed rows the reader prints one "outside CZ" line per rejected
    row and none for an accepted one: the number of these lines plus the
    number of accepted points is the number of rows, and a pair is
    reported on such a line exactly when it is a pair of the file that
    lies outside the box. *)
Theorem read_gps_data_skip_lines rows pairs :
  Forall2 (row_parses parse_float) rows pairs →
  ∃ out longitudes latitudes,
    read_gps_data parse_float rows = (out, inr (longitudes, latitudes))
    ∧ (length (filter is_skip_line out) + length longitudes = length rows)%nat
    ∧ ∀ longitude latitude,
        PrintOutsideCZ longitude latitude ∈ out
        ↔ (longitude, latitude) ∈ pairs ∧ ¬ in_cz (longitude, latitude).
Proof.
  intros Hrows. do 3 eexists. split; [by apply read_gps_data_parsed|].
  split.
  - rewrite length_fmap, (Forall2_length _ _ _ Hrows).
    apply diagnostics_skip_count.
  - apply diagnostics_skip_lines.
Qed.

Lemma diagnostics_echo i pairs :
  filter is_echo_line (diagnostics i pairs)
  = imap (λ j p, PrintRow (i + j) p.1 p.2) (take (5 - i) pairs).
Proof.
  revert i. induction pairs as [|p pairs IH]; intros i.
  { by rewrite take_nil. }
  cbn [diagnostics]. rewrite !filter_app, IH.
  assert (filter is_echo_line
            (if bool_decide (in_cz p) then [] else [PrintOutsideCZ p.1 p.2]) = [])
    as -> by (by case_bool_decide).
  cbn [app]. case_bool_decide as Hi.
  - replace (5 - i)%nat with (S (5 - S i)) by lia.
    cbn [take]. rewrite imap_cons, Nat.add_0_r.
    rewrite filter_cons_True by done. rewrite filter_nil. cbn [app]. f_equal.
    apply imap_ext. intros j q _. cbn. f_equal. lia.
  - replace (5 - i)%nat with 0%nat by lia. replace (5 - S i)%nat with 0%nat by lia.
    by rewrite !take_0.
Qed.

(** X11. On parsed rows the reader echoes the first five rows, and only
    those, in order and with their row numbers from 0, whether or not the
    row is then accepted. *)
Theorem read_gps_data_echo rows pairs :
  Forall2 (row_parses parse_float) rows pairs →
  filter is_echo_line (read_gps_data parse_float rows).1
  = imap (λ i p, PrintRow i p.1 p.2) (take 5 pairs).
Proof.
  intros Hrows. rewrite (read_gps_data_parsed _ _ Hrows). cbn [fst].
  apply (diagnostics_echo 0).
Qed.

(** X12. The first row that fails decides the outcome: after rows that
    parse, a row whose longitude fails, or whose longitude parses and
    whose latitude fails, makes the reader raise that row's exception.
    The diagnostics of the rows before it are already printed, the points
    collected so far are lost, and the rows after it are not looked at. *)
Theorem read_gps_data_first_failure good pairs bad rest e :
  Forall2 (row_parses parse_float) good pairs →
  (float_field parse_float bad "Longitude" = inl e
   ∨ (∃ longitude, float_field parse_float bad "Longitude" = inr longitude)
     ∧ float_field parse_float bad "Latitude" = inl e) →
  read_gps_data parse_float (good ++ bad :: rest) = (diagnostics 0 pairs, inl e).
Proof.
  intros Hgood Hbad. unfold read_gps_data.
  rewrite (read_rows_app_parsed _ _ Hgood), read_rows_cons.
  destruct Hbad as [->|[[longitude ->] ->]]; by rewrite app_nil_r.
Qed.

End reader_diagnostics.

Lemma example_bad_rows_run :
  read_gps_data example_float example_bad_rows
  = (diagnostics 0 [(13.5, 49.0)%R], inl ValueError).
Proof.
  unfold read_gps_data.
  assert (Forall2 (row_parses example_float)
            [example_row "13.5" "49.0"] [(13.5, 49.0)%R]) as Hgood
    by (repeat constructor).
  change example_bad_rows
    with ([example_row "13.5" "49.0"] ++ [example_row "13.5" "49,0"]).
  rewrite (read_rows_app_parsed _ _ _ Hgood), read_rows_cons.
  change (float_field example_float (example_row "13.5" "49,0") "Longitude")
    with (inr 13.5%R : result R).
  change (float_field example_float (example_row "13.5" "49,0") "Latitude")
    with (inl ValueError : result R).
  cbv beta iota. by rewrite app_nil_r.
Qed.

Lemma read_gps_data_skip_lines_witness :
  Forall2 (row_parses example_float) example_rows [(13.5, 49.0); (20.0, 49.0)]%R
  ∧ ∃ out longitudes latitudes,
      read_gps_data example_float example_rows = (out, inr (longitudes, latitudes))
      ∧ (length (filter is_skip_line out) + length longitudes = 2)%nat.
Proof.
  split; [exact example_rows_parse|].
  destruct (read_gps_data_skip_lines example_float _ _ example_rows_parse)
    as (out & longitudes & latitudes & Hrun & Hcount & _).
  by exists out, longitudes, latitudes.
Defined.

Lemma read_gps_data_echo_witness :
  Forall2 (row_parses example_float) example_rows [(13.5, 49.0); (20.0, 49.0)]%R
  ∧ filter is_echo_line (read_gps_data example_float example_rows).1
    = [PrintRow 0 13.5 49.0; PrintRow 1 20.0 49.0]%R.
Proof.
  split; [exact example_rows_parse|].
  exact (read_gps_data_echo example_float _ _ example_rows_parse).
Defined.

Lemma read_gps_data_first_failure_witness :
  Forall2 (row_parses example_float) [example_row "13.5" "49.0"] [(13.5, 49.0)%R]
  ∧ read_gps_data example_float example_bad_rows
    = (diagnostics 0 [(13.5, 49.0)%R], inl ValueError).
Proof.
  assert (Forall2 (row_parses example_float)
            [example_row "13.5" "49.0"] [(13.5, 49.0)%R]) as Hgood
    by (repeat constructor).
  split; [exact Hgood|].
  apply (read_gps_data_first_failure example_float
           [example_row "13.5" "49.0"] _ (example_row "13.5" "49,0") [] _ Hgood).
  right. split; [by exists 13.5%R|reflexivity].
Defined.

(** ** The whole of [plot_gps_path] *)

(** Lines 61-103 raise nothing: the guards keep [min], [max] and [int]
    away from the inputs on which they fail. *)
Lemma plot_coordinates_returns csv_file (longitudes latitudes : list float) :
  (plot_coordinates csv_file longitudes latitudes).2 = inr tt.
Proof.
  destruct (decide (length longitudes < 1000 ∨ length latitudes < 1000)%nat)
    as [Hfew|Hmany].
  - by rewrite plot_coordinates_skip.
  - destruct (plot_coordinates_render csv_file longitudes latitudes)
      as (a & b & c & d & zoom & _ & _ & ->); [lia..|done].
Qed.

(** Bounds and zoom of a set inside the box. *)
Lemma bounds_zoom_in_cz (cs : list (float * float)) min_lon max_lon min_lat max_lat zoom :
  Forall in_cz cs →
  calculate_bounds cs.*1 cs.*2 = inr (min_lon, max_lon, min_lat, max_lat) →
  estimate_zoom min_lon max_lon min_lat max_lat = inr zoom →
  (9 ≤ zoom ≤ 19)%Z.
Proof.
  intros Hall Hbounds Hzoom.
  apply calculate_bounds_inr in Hbounds as (Ha & Hb & Hc & Hd).
  pose proof (minimum_le_maximum _ _ _ Ha Hb) as Hab.
  pose proof (minimum_le_maximum _ _ _ Hc Hd) as Hcd.
  pose proof (in_cz_fst _ _ Hall (proj1 Ha)) as Ha'.
  pose proof (in_cz_fst _ _ Hall (proj1 Hb)) as Hb'.
  pose proof (in_cz_snd _ _ Hall (proj1 Hc)) as Hc'.
  pose proof (in_cz_snd _ _ Hall (proj1 Hd)) as Hd'.
  unfold LON_MIN, LON_MAX in Ha', Hb'. unfold LAT_MIN, LAT_MAX in Hc', Hd'.
  rewrite estimate_zoom_nonneg in Hzoom by lra. injection Hzoom as <-.
  case_decide as Hz; [lia|]. split; [|lia].
  apply clamped_zoom_ge_9. split.
  - apply Rmax_pos_of_spans; [lra..|done].
  - apply Rmax_lub; lra.
Qed.

Lemma existsb_render_reader_events out :
  Forall is_reader_event out → existsb is_render_call out = false.
Proof.
  induction 1 as [|e out He _ IH]; [done|].
  cbn [existsb]. rewrite IH. by destruct e.
Qed.

Section pipeline.

Variable parse_float : string → option float.

(** The three ways a call of [plot_gps_path] can go. *)
Lemma plot_gps_path_cases csv_file rows :
  (∃ out e,
     Forall is_reader_event out
     ∧ read_gps_data parse_float rows = (out, inl e)
     ∧ plot_gps_path parse_float csv_file rows = (out, inl e))
  ∨ (∃ out longitudes latitudes,
       Forall is_reader_event out
       ∧ read_gps_data parse_float rows = (out, inr (longitudes, latitudes))
       ∧ (length longitudes < 1000)%nat
       ∧ plot_gps_path parse_float csv_file rows
         = (out ++ [PrintSkipping csv_file], inr tt))
  ∨ (∃ out longitudes latitudes min_lon max_lon min_lat max_lat zoom,
       Forall is_reader_event out
       ∧ read_gps_data parse_float rows = (out, inr (longitudes, latitudes))
       ∧ (1000 ≤ length longitudes)%nat
       ∧ length longitudes = length latitudes
       ∧ Forall in_cz (zip longitudes latitudes)
       ∧ calculate_bounds longitudes latitudes
         = inr (min_lon, max_lon, min_lat, max_lat)
       ∧ estimate_zoom min_lon max_lon min_lat max_lat = inr zoom
       ∧ plot_gps_path parse_float csv_file rows
         = (out ++ [GeoDataFrame (zip longitudes latitudes); ToCrs; Plot;
                    SetLimits min_lon min_lat max_lon max_lat;
                    PrintZoom zoom; AddBasemap zoom; Show csv_file], inr tt)).
Proof.
  assert (Forall is_reader_event (read_gps_data parse_float rows).1) as Hevents
    by apply read_rows_events.
  destruct (read_gps_data parse_float rows) as [out [e|[longitudes latitudes]]] eqn:Hread;
    cbn [fst] in Hevents.
  - left. exists out, e. split; [done|]. split; [done|].
    unfold plot_gps_path. by rewrite Hread.
  - destruct (read_rows_accepted parse_float rows 0%nat [] [] _ _ _ Hread)
      as [Hlen Hall]; [done|constructor|].
    rewrite (plot_gps_path_after_read parse_float csv_file _ _ _ _ Hread).
    destruct (decide (length longitudes < 1000)%nat) as [Hfew|Hmany].
    + right. left. exists out, longitudes, latitudes.
      rewrite plot_coordinates_skip by auto. by split_and!.
    + right. right.
      destruct (plot_coordinates_render csv_file longitudes latitudes)
        as (a & b & c & d & zoom & Hbounds & Hzoom & ->); [lia..|].
      exists out, longitudes, latitudes, a, b, c, d, zoom.
      split_and!; [done|done|lia|done..].
Qed.

(** X14. [plot_gps_path] raises exactly when [read_gps_data] does, with the
    same exception after the same output: [min], [max] and [int] never
    fail on what the reader returned, so (the plotting calls being taken
    to return) a row that cannot be read is the only way in which a file
    stops the program. *)
Theorem plot_gps_path_raises csv_file rows out e :
  plot_gps_path parse_float csv_file rows = (out, inl e)
  ↔ read_gps_data parse_float rows = (out, inl e).
Proof.
  split.
  - intros Hplot.
    destruct (plot_gps_path_cases csv_file rows)
      as [(out' & e' & _ & Hread & Hplot')
         |[(out' & lo & la & _ & _ & _ & Hplot')
          |(out' & lo & la & a & b & c & d & z & _ & _ & _ & _ & _ & _ & _ & Hplot')]];
      rewrite Hplot in Hplot'; [|done..].
    by injection Hplot' as <- <-.
  - intros Hread. unfold plot_gps_path. by rewrite Hread.
Qed.

(** X15. Whatever the file holds, every zoom level that [plot_gps_path]
    prints or asks the basemap for lies between 9 and 19: the reader only
    lets through points of the box, whose spans are at most 6.9 degrees. *)
Theorem plot_gps_path_zoom_range csv_file rows :
  Forall (λ ev, match ev with
                | PrintZoom zoom | AddBasemap zoom => (9 ≤ zoom ≤ 19)%Z
                | _ => True
                end)
         (plot_gps_path parse_float csv_file rows).1.
Proof.
  assert (∀ out, Forall is_reader_event out →
            Forall (λ ev, match ev with
                          | PrintZoom zoom | AddBasemap zoom => (9 ≤ zoom ≤ 19)%Z
                          | _ => True
                          end) out) as Hreader.
  { intros out Hall. eapply Forall_impl; [exact Hall|]. by intros []. }
  destruct (plot_gps_path_cases csv_file rows)
    as [(out & e & Hev & _ & ->)
       |[(out & lo & la & Hev & _ & _ & ->)
        |(out & lo & la & a & b & c & d & z & Hev & _ & _ & Hlen & Hall
          & Hbounds & Hzoom & ->)]]; cbn [fst].
  - auto.
  - apply Forall_app. split; [auto|]. by apply Forall_singleton.
  - apply Forall_app. split; [auto|].
    assert (9 ≤ z ≤ 19)%Z as Hz.
    { apply (bounds_zoom_in_cz (zip lo la) a b c d z Hall); [|done].
      rewrite fst_zip, snd_zip by lia. done. }
    repeat (apply Forall_cons_2; [done|]). apply Forall_nil_2.
Qed.

Lemma existsb_render_diagnostics i pairs :
  existsb is_render_call (diagnostics i pairs) = false.
Proof.
  revert i. induction pairs as [|p pairs IH]; intros i; [done|].
  cbn [diagnostics]. rewrite !existsb_app, IH.
  by repeat case_bool_decide.
Qed.

(** X17. On parsed rows, what counts for drawing is the number of accepted
    points and not the number of rows: [plot_gps_path] returns, and it
    draws the figure exactly when at least 1000 of the pairs lie inside
    the box; otherwise it prints the skip line. *)
Theorem plot_gps_path_renders_iff csv_file rows pairs :
  Forall2 (row_parses parse_float) rows pairs →
  ∃ out,
    plot_gps_path parse_float csv_file rows = (out, inr tt)
    ∧ existsb is_render_call out
      = bool_decide (1000 ≤ length (filter in_cz pairs))%nat
    ∧ (PrintSkipping csv_file ∈ out ↔ (length (filter in_cz pairs) < 1000)%nat).
Proof.
  intros Hrows.
  pose proof (read_gps_data_parsed parse_float _ _ Hrows) as Hread.
  rewrite (plot_gps_path_after_read parse_float csv_file _ _ _ _ Hread).
  assert (∀ ev, ev ∈ diagnostics 0 pairs → is_reader_event ev) as Hreader.
  { intros ev. pose proof (read_rows_events parse_float rows 0%nat [] []) as Hev.
    unfold read_gps_data in Hread. rewrite Hread in Hev. cbn [fst] in Hev.
    by apply Forall_forall. }
  destruct (decide (length (filter in_cz pairs) < 1000)%nat) as [Hfew|Hmany].
  - rewrite plot_coordinates_skip by (left; by rewrite length_fmap).
    eexists. split; [reflexivity|]. cbn [fst].
    rewrite existsb_app, existsb_render_diagnostics.
    rewrite bool_decide_eq_false_2 by lia. split; [done|].
    split; [done|]. intros _. apply elem_of_app. right. apply list_elem_of_here.
  - destruct (plot_coordinates_render csv_file
                (filter in_cz pairs).*1 (filter in_cz pairs).*2)
      as (a & b & c & d & zoom & _ & _ & ->); [rewrite length_fmap; lia..|].
    eexists. split; [reflexivity|]. cbn [fst].
    rewrite existsb_app, existsb_render_diagnostics.
    rewrite bool_decide_eq_true_2 by lia. split; [done|].
    split; [|lia]. intros Hin. apply elem_of_app in Hin as [Hin|Hin].
    + by apply Hreader in Hin.
    + repeat (apply elem_of_cons in Hin as [Hin|Hin]; [discriminate|]).
      by apply elem_of_nil in Hin.
Qed.

End pipeline.

Lemma filter_in_cz_replicate n p : in_cz p → filter in_cz (replicate n p) = replicate n p.
Proof.
  intros Hp. induction n as [|n IH]; [done|].
  cbn [replicate]. by rewrite filter_cons_True, IH.
Qed.

Lemma example_point_in_cz : in_cz (13.5, 49.0)%R.
Proof. unfold in_cz, LON_MIN, LON_MAX, LAT_MIN, LAT_MAX. cbn [fst snd]. lra. Qed.

Lemma example_track_parses :
  Forall2 (row_parses example_float) example_track (replicate 1200 (13.5, 49.0)%R).
Proof. apply Forall2_replicate. by split. Qed.

Lemma plot_gps_path_renders_iff_witness :
  Forall2 (row_parses example_float) example_track (replicate 1200 (13.5, 49.0)%R)
  ∧ ∃ out,
      plot_gps_path example_float "track.csv" example_track = (out, inr tt)
      ∧ existsb is_render_call out = true.
Proof.
  split; [exact example_track_parses|].
  destruct (plot_gps_path_renders_iff example_float "track.csv" _ _
              example_track_parses) as (out & Hrun & Hrender & _).
  exists out. split; [exact Hrun|]. rewrite Hrender.
  apply bool_decide_eq_true.
  rewrite (filter_in_cz_replicate _ _ example_point_in_cz), length_replicate. lia.
Defined.

(** ** File discovery and the main block *)

Lemma endswith_spec s suffix :
  endswith s suffix = true ↔ ∃ stem, s = stem +:+ suffix.
Proof.
  induction s as [|a s IH]; cbn [endswith].
  - destruct (String.eqb_spec "" suffix) as [<-|Hne].
    + split; [by exists ""|done].
    + split; [done|]. intros [[|b stem] Hstem]; [by cbn in Hstem|done].
  - destruct (String.eqb_spec (String a s) suffix) as [<-|Hne].
    + split; [by exists ""|done].
    + rewrite IH. split.
      * intros [stem ->]. by exists (String a stem).
      * intros [[|b stem] Hstem]; [by cbn in Hstem|].
        injection Hstem as <- ->. by exists stem.
Qed.

(** X18. [find_csv_files] returns exactly the names of the directory
    listing that end in ".csv" (the name ".csv" itself among them, and by
    exact, case-sensitive comparison), in the order of the listing. *)
Theorem find_csv_files_spec (listdir : list string) :
  (∀ f, f ∈ find_csv_files listdir ↔ f ∈ listdir ∧ ∃ stem, f = stem +:+ ".csv")
  ∧ find_csv_files listdir `sublist_of` listdir.
Proof.
  split; [|apply sublist_filter].
  intros f. unfold find_csv_files. rewrite list_elem_of_filter, Is_true_true.
  rewrite endswith_spec. tauto.
Qed.

Section main_properties.

Variable parse_float : string → option float.
Variable rows_of : string → list row.

Lemma plotting_line_in_plot out : omap plotting_line (InPlot <$> out) = [].
Proof. induction out as [|e out IH]; [done|]. by rewrite fmap_cons. Qed.

(** The loop over files that all return: every file is announced, in
    order, and the loop goes on to the files after them. *)
Lemma plot_all_app good rest :
  (∀ f, f ∈ good → (plot_gps_path parse_float f (rows_of f)).2 = inr tt) →
  plot_all parse_float rows_of (good ++ rest)
  = ((plot_all parse_float rows_of good).1 ++ (plot_all parse_float rows_of rest).1,
     (plot_all parse_float rows_of rest).2)
  ∧ omap plotting_line (plot_all parse_float rows_of good).1 = good.
Proof.
  induction good as [|f good IH]; intros Hgood.
  { split; [|done]. cbn [app plot_all fst]. by destruct (plot_all _ _ rest). }
  destruct IH as [IHrun IHlines].
  { intros f' Hf'. apply Hgood. by right. }
  specialize (Hgood f (list_elem_of_here _ _)).
  cbn [app plot_all]. rewrite IHrun.
  destruct (plot_gps_path parse_float f (rows_of f)) as [out [e|[]]]; [done|].
  destruct (plot_all parse_float rows_of good) as [out_good res_good].
  cbn [fst snd] in *. split.
  - by rewrite <- app_comm_cons, <- app_assoc.
  - cbn [omap list_omap plotting_line]. f_equal.
    by rewrite omap_app, plotting_line_in_plot, IHlines.
Qed.

Lemma plot_gps_path_parsed_returns csv_file rows pairs :
  Forall2 (row_parses parse_float) rows pairs →
  (plot_gps_path parse_float csv_file rows).2 = inr tt.
Proof.
  intros Hrows.
  rewrite (plot_gps_path_after_read parse_float csv_file _ _ _ _
             (read_gps_data_parsed parse_float _ _ Hrows)).
  apply plot_coordinates_returns.
Qed.

Lemma main_as_plot_all listdir :
  find_csv_files listdir ≠ [] →
  main parse_float rows_of listdir
  = plot_all parse_float rows_of (find_csv_files listdir).
Proof. unfold main. by destruct (find_csv_files listdir). Qed.

Lemma plot_all_no_files_line csv_files :
  PrintNoCsvFiles ∉ (plot_all parse_float rows_of csv_files).1.
Proof.
  induction csv_files as [|f csv_files IH]; cbn [plot_all].
  { apply not_elem_of_nil. }
  destruct (plot_gps_path parse_float f (rows_of f)) as [out [e|[]]].
  - cbn [fst]. intros Hin. apply elem_of_cons in Hin as [Hin|Hin]; [done|].
    apply list_elem_of_fmap in Hin as (ev & Hev & _). done.
  - destruct (plot_all parse_float rows_of csv_files) as [out' res]. cbn [fst] in *.
    intros Hin. apply elem_of_cons in Hin as [Hin|Hin]; [done|].
    apply elem_of_app in Hin as [Hin|Hin]; [|done].
    apply list_elem_of_fmap in Hin as (ev & Hev & _). done.
Qed.

(** X19. The main block prints "No CSV files found" exactly when no name of
    the directory ends in ".csv", and then it does nothing else: no file
    is read and nothing is raised. *)
Theorem main_no_csv_files (listdir : list string) :
  (PrintNoCsvFiles ∈ (main parse_float rows_of listdir).1
   ↔ ∀ f, f ∈ listdir → ¬ ∃ stem, f = stem +:+ ".csv")
  ∧ (PrintNoCsvFiles ∈ (main parse_float rows_of listdir).1 →
     main parse_float rows_of listdir = ([PrintNoCsvFiles], inr tt)).
Proof.
  assert (find_csv_files listdir = []
          ↔ ∀ f, f ∈ listdir → ¬ ∃ stem, f = stem +:+ ".csv") as Hnone.
  { unfold find_csv_files. split.
    - intros Hnil f Hf Hstem. apply endswith_spec in Hstem.
      assert (f ∈ filter (λ f, endswith f ".csv") listdir) as Hin
        by (apply list_elem_of_filter; by rewrite Is_true_true).
      rewrite Hnil in Hin. by apply elem_of_nil in Hin.
    - intros Hall.
      destruct (filter (λ f, endswith f ".csv") listdir) as [|f l] eqn:Hfilter;
        [done|].
      assert (f ∈ filter (λ f, endswith f ".csv") listdir) as Hin
        by (rewrite Hfilter; left).
      apply list_elem_of_filter in Hin as [Hends Hf].
      destruct (Hall f Hf). by apply endswith_spec, Is_true_true. }
  rewrite <- Hnone.
  destruct (decide (find_csv_files listdir = [])) as [Hnil|Hsome].
  - unfold main. rewrite Hnil. cbn [fst]. split; [|done].
    split; [done|]. intros _. apply list_elem_of_here.
  - rewrite main_as_plot_all by done.
    split; [split; [|done]|]; intros Hin; by apply plot_all_no_files_line in Hin.
Qed.

(** X20. One malformed file stops the batch: when the files before it all
    have parsed rows and its own reader raises, the main block ends with
    that exception, and the files announced by a "Plotting" line are the
    ones up to and including the malformed file; the files after it are
    never opened. *)
Theorem main_stops_at_first_failure listdir good bad rest out_bad e :
  find_csv_files listdir = good ++ bad :: rest →
  (∀ f, f ∈ good → ∃ pairs, Forall2 (row_parses parse_float) (rows_of f) pairs) →
  read_gps_data parse_float (rows_of bad) = (out_bad, inl e) →
  (main parse_float rows_of listdir).2 = inl e
  ∧ omap plotting_line (main parse_float rows_of listdir).1 = good ++ [bad]
  ∧ main parse_float rows_of listdir
    = plot_all parse_float rows_of (good ++ [bad]).
Proof.
  intros Hfiles Hgood Hbad.
  assert (∀ f, f ∈ good → (plot_gps_path parse_float f (rows_of f)).2 = inr tt)
    as Hgood'.
  { intros f Hf. destruct (Hgood f Hf) as [pairs Hpairs].
    by eapply plot_gps_path_parsed_returns. }
  assert (∀ rest', plot_all parse_float rows_of (bad :: rest')
                   = (PrintPlotting bad :: (InPlot <$> out_bad), inl e)) as Hstop.
  { intros rest'. cbn [plot_all]. unfold plot_gps_path. by rewrite Hbad. }
  rewrite main_as_plot_all by (rewrite Hfiles; by destruct good).
  rewrite Hfiles.
  destruct (plot_all_app good (bad :: rest) Hgood') as [-> Hlines].
  destruct (plot_all_app good [bad] Hgood') as [-> _].
  rewrite !Hstop. cbn [fst snd]. split; [done|]. split; [|done].
  rewrite omap_app, Hlines. cbn [omap list_omap plotting_line].
  by rewrite plotting_line_in_plot.
Qed.

(** X21. When every row of every ".csv" file parses, the main block returns
    normally and announces each of these files once, in listing order;
    files with other names are not touched. *)
Theorem main_plots_every_file listdir :
  (∀ f, f ∈ find_csv_files listdir →
        ∃ pairs, Forall2 (row_parses parse_float) (rows_of f) pairs) →
  (main parse_float rows_of listdir).2 = inr tt
  ∧ omap plotting_line (main parse_float rows_of listdir).1 = find_csv_files listdir.
Proof.
  intros Hparsed.
  destruct (decide (find_csv_files listdir = [])) as [Hnil|Hsome].
  { unfold main. by rewrite Hnil. }
  rewrite main_as_plot_all by done.
  destruct (plot_all_app (find_csv_files listdir) []) as [Hrun Hlines].
  { intros f Hf. destruct (Hparsed f Hf) as [pairs Hpairs].
    by eapply plot_gps_path_parsed_returns. }
  rewrite app_nil_r in Hrun. rewrite Hrun. cbn [fst snd plot_all].
  by rewrite app_nil_r.
Qed.

End main_properties.

Lemma main_stops_at_first_failure_witness :
  let rows_of := λ f : string,
    if decide (f = "a.csv") then example_rows else example_bad_rows in
  find_csv_files ["a.csv"; "notes.txt"; "b.csv"; "c.csv"] = ["a.csv"] ++ "b.csv" :: ["c.csv"]
  ∧ (∀ f, f ∈ ["a.csv"] →
          ∃ pairs, Forall2 (row_parses example_float) (rows_of f) pairs)
  ∧ (main example_float rows_of ["a.csv"; "notes.txt"; "b.csv"; "c.csv"]).2
    = inl ValueError
  ∧ omap plotting_line
      (main example_float rows_of ["a.csv"; "notes.txt"; "b.csv"; "c.csv"]).1
    = ["a.csv"; "b.csv"].
Proof.
  intros rows_of.
  assert (∀ f, f ∈ ["a.csv"] →
               ∃ pairs, Forall2 (row_parses example_float) (rows_of f) pairs) as Hgood.
  { intros f Hf. apply list_elem_of_singleton in Hf as ->.
    eexists. exact example_rows_parse. }
  split; [reflexivity|]. split; [exact Hgood|].
  destruct (main_stops_at_first_failure example_float rows_of
              ["a.csv"; "notes.txt"; "b.csv"; "c.csv"] ["a.csv"] "b.csv" ["c.csv"]
              _ _ eq_refl Hgood example_bad_rows_run) as (Hres & Hlines & _).
  split; [exact Hres|exact Hlines].
Defined.

Lemma main_plots_every_file_witness :
  (∀ f, f ∈ find_csv_files ["a.csv"; "notes.txt"; "b.csv"] →
        ∃ pairs, Forall2 (row_parses example_float) example_rows pairs)
  ∧ (main example_float (λ _, example_rows) ["a.csv"; "notes.txt"; "b.csv"]).2 = inr tt
  ∧ omap plotting_line
      (main example_float (λ _, example_rows) ["a.csv"; "notes.txt"; "b.csv"]).1
    = ["a.csv"; "b.csv"].
Proof.
  assert (∀ f, f ∈ find_csv_files ["a.csv"; "notes.txt"; "b.csv"] →
               ∃ pairs, Forall2 (row_parses example_float) example_rows pairs) as Hparsed.
  { intros f _. eexists. exact example_rows_parse. }
  split; [exact Hparsed|].
  exact (main_plots_every_file example_float (λ _, example_rows) _ Hparsed).
Defined.
